(** * OffChain social scoring and ranking service (apps/OffChain/src/index.ts)

    A shallow embedding of the scoring, ranking-cache and social-refresh code
    of the OffChain service, and the properties of its specification.

    Conventions of the embedding.
    - A value stored in Redis is the record obtained by [JSON.parse]; a field
      that may be missing is an [option], and a stored number is the exact
      value of its double, a rational ([Q]).
    - The Redis keyspace is an association list: [KEYS] enumerates it in the
      order of the list, [SET] replaces in place or appends.
    - An [async] function is a state transformer on the process state
      ([World]) that may throw; [Date.now()] is an explicit argument.
    - The score computations are embedded twice.  [IEEE] at the end of the
      definitions has them on binary64 numbers, with [Math.round], [NaN],
      signed zeros and the members an object literal inherits; the values a
      write stores are stated there.  The first embedding reads the same
      expressions on exact rationals; the order, frame and scheduling
      properties, which do not depend on the rounding of a product or sum,
      are stated on it. *)

From Stdlib Require Import ZArith QArith Qround Qminmax.
From Stdlib Require Import List String Bool Lia Lqa Permutation Sorted.
From Stdlib Require Floats.
Import ListNotations.

Local Open Scope string_scope.

(** ** JavaScript numerics, on exact rationals *)

Module JS.

(** [Math.round]: nearest integer, ties towards +infinity.  On doubles:
    [IEEE.Math_round]. *)
Definition Math_round (x : Q) : Z := Qfloor (x + (1 # 2)).

(** [Math.min] on rationals. *)
Definition Math_min (x y : Q) : Q := Qmin x y.

(** Truthiness of a number that may be [undefined]: [undefined] and [0] are
    falsy. *)
Definition truthy (x : option Q) : bool :=
  match x with
  | None => false
  | Some q => negb (Qeq_bool q 0)
  end.

(** [a || b] when [b] is a number. *)
Definition or_num (a : option Q) (b : Q) : Q :=
  match a with
  | Some q => if Qeq_bool q 0 then b else q
  | None => b
  end.

(** [a || b] when [b] may itself be [undefined]. *)
Definition or_opt (a b : option Q) : option Q :=
  if truthy a then a else b.

(** [a || b] on strings that may be [undefined]: [undefined] and the empty
    string are falsy. *)
Definition or_str (a : option string) (b : string) : string :=
  match a with
  | Some EmptyString => b
  | Some s => s
  | None => b
  end.

(** A destructuring default [{ x = d }]: used only when the field is
    [undefined]. *)
Definition default {A : Type} (x : option A) (d : A) : A :=
  match x with
  | Some v => v
  | None => d
  end.

End JS.

(** ** Social analysis of a token (type [AnalyzedToken] of the aggregator) *)

Record AnalyzedToken : Type := mkAnalyzedToken {
  tokenName : string;
  ticker : option string;
  sentiment : string;
  sentimentScore : option Q;
  trendingScore : option Q;
  mentionCount : option Q;
  avgEngagement : option Q;
  confidence : option Q;
  riskLevel : option string;
  recommendation : string;
  reasoning : string
}.

(** The object literal [{low: 1, medium: 0.8, high: 0.5, extreme: 0.2}],
    looked up among its own keys; the members it inherits are in
    [IEEE.getProperty]. *)
Definition riskPenaltyTable : list (string * Q) :=
  [ ("low", 1); ("medium", 0.8); ("high", 0.5); ("extreme", 0.2) ]%Q.

Fixpoint lookup {V : Type} (k : string) (tbl : list (string * V)) : option V :=
  match tbl with
  | [] => None
  | (k', v) :: rest => if String.eqb k k' then Some v else lookup k rest
  end.

(** The score read on exact rationals, for a label that names no inherited
    member; on doubles: [IEEE.calculateSocialScore]. *)
Definition calculateSocialScore (tokenAnalysis : AnalyzedToken) : Z :=
  let sentimentScore := JS.default (sentimentScore tokenAnalysis) 0 in
  let trendingScore := JS.default (trendingScore tokenAnalysis) 0 in
  let mentionCount := JS.default (mentionCount tokenAnalysis) 0 in
  let avgEngagement := JS.default (avgEngagement tokenAnalysis) 0 in
  let confidence := JS.default (confidence tokenAnalysis) 0 in
  let riskLevel := JS.default (riskLevel tokenAnalysis) "medium" in
  let riskPenalty := JS.or_num (lookup riskLevel riskPenaltyTable) 0.8 in
  let baseScore :=
    (trendingScore * 0.3) +
    ((sentimentScore + 1) * 50 * 0.25) +
    (JS.Math_min mentionCount 100 * 0.2) +
    (JS.Math_min (avgEngagement / 10) 100 * 0.15) +
    (confidence * 100 * 0.1) in
  Z.max 0 (Z.min 100 (JS.Math_round (baseScore * riskPenalty))).

(** ** Stored records and ranking entries *)

(** The [socialAnalysis] object written next to the scores. *)
Module SocialAnalysis.
Record t : Type := mk {
  sentiment : string;
  sentimentScore : option Q;
  mentionCount : option Q;
  riskLevel : option string;
  recommendation : string;
  confidence : option Q;
  lastUpdated : Z
}.
End SocialAnalysis.

(** A parsed value of the Score Store.  [trendingscore] is the on-chain
    score; [extra] stands for the fields this service copies untouched. *)
Module Token.
Record t : Type := mk {
  address : string;
  name : option string;
  symbol : option string;
  trendingscore : option Q;
  finalScore : option Q;
  socialScore : option Q;
  socialAnalysis : option SocialAnalysis.t;
  extra : list (string * string)
}.
End Token.

(** An element of the ranking built by [getTokenAddressesSorted]. *)
Module Ranked.
Record t : Type := mk {
  address : string;
  name : string;
  symbol : string;
  finalScore : Q
}.
End Ranked.

(** ** Process state and the Redis client *)

Record World : Type := mkWorld {
  db : list (string * Token.t);        (* Redis keyspace, in KEYS order *)
  up : bool;                           (* the store answers commands *)
  sets : list (string * Token.t);      (* SET commands issued, oldest first *)
  cachedRankings : list Ranked.t;
  lastRankingUpdate : Z
}.

Inductive Result (A : Type) : Type :=
| Ok (a : A)
| Thrown.
Arguments Ok {A} a.
Arguments Thrown {A}.

(** An [async] computation: runs on the process state, returns or throws. *)
Definition Async (A : Type) : Type := World -> Result A * World.

Definition ret {A} (a : A) : Async A := fun w => (Ok a, w).

Definition bind {A B} (m : Async A) (k : A -> Async B) : Async B :=
  fun w =>
    match m w with
    | (Ok a, w') => k a w'
    | (Thrown, w') => (Thrown, w')
    end.

Definition throw {A} : Async A := fun w => (Thrown, w).

(** [try { m } catch { h }] *)
Definition try_catch {A} (m h : Async A) : Async A :=
  fun w =>
    match m w with
    | (Ok a, w') => (Ok a, w')
    | (Thrown, w') => h w'
    end.

Notation "x <- m ;; k" := (bind m (fun x => k))
  (at level 61, m at next level, right associativity).
Notation "m ;;; k" := (bind m (fun _ => k))
  (at level 61, right associativity).

Definition read {A} (f : World -> A) : Async A := fun w => (Ok (f w), w).

Fixpoint upsert {V : Type} (k : string) (v : V) (l : list (string * V))
  : list (string * V) :=
  match l with
  | [] => [(k, v)]
  | (k', v') :: rest =>
      if String.eqb k k' then (k, v) :: rest else (k', v') :: upsert k v rest
  end.

Module client.

(** [client.keys('0x*')] *)
Definition keys (pfx : string) : Async (list string) :=
  fun w =>
    if up w then (Ok (filter (String.prefix pfx) (map fst (db w))), w)
    else (Thrown, w).

Definition get (k : string) : Async (option Token.t) :=
  fun w => if up w then (Ok (lookup k (db w)), w) else (Thrown, w).

(** [MGET] takes at least one key: the server answers a command without
    keys with an error, which rejects the call. *)
Definition mGet (ks : list string) : Async (list (option Token.t)) :=
  fun w =>
    if up w then
      match ks with
      | [] => (Thrown, w)
      | _ :: _ => (Ok (map (fun k => lookup k (db w)) ks), w)
      end
    else (Thrown, w).

Definition set (k : string) (v : Token.t) : Async unit :=
  fun w =>
    if up w then
      (Ok tt, mkWorld (upsert k v (db w)) (up w) (sets w ++ [(k, v)])
                      (cachedRankings w) (lastRankingUpdate w))
    else (Thrown, w).

End client.

Definition set_cachedRankings (r : list Ranked.t) : Async unit :=
  fun w => (Ok tt, mkWorld (db w) (up w) (sets w) r (lastRankingUpdate w)).

Definition set_lastRankingUpdate (t : Z) : Async unit :=
  fun w => (Ok tt, mkWorld (db w) (up w) (sets w) (cachedRankings w) t).

(** ** The ranking cache *)

Definition RANKING_CACHE_TTL : Z := (2 * 60 * 1000)%Z.

(** [finalScore: v.finalScore || v.trendingscore || 0] and the other fields
    of a ranking entry. *)
Definition toRanked (v : Token.t) : Ranked.t :=
  Ranked.mk (Token.address v)
            (JS.or_str (Token.name v) EmptyString)
            (JS.or_str (Token.symbol v) EmptyString)
            (JS.or_num (JS.or_opt (Token.finalScore v) (Token.trendingscore v)) 0).

(** [tokens.sort((a, b) => b.finalScore - a.finalScore)]: the sort of the
    language is stable, so the result is that of a stable insertion. *)
Fixpoint insert (x : Ranked.t) (l : list Ranked.t) : list Ranked.t :=
  match l with
  | [] => [x]
  | y :: l' =>
      match Qcompare (Ranked.finalScore x) (Ranked.finalScore y) with
      | Lt => y :: insert x l'
      | _ => x :: l
      end
  end.

Definition sort (l : list Ranked.t) : list Ranked.t := fold_right insert [] l.

(** [values.map(v => v ? JSON.parse(v) : null).filter(Boolean)] *)
Fixpoint present {A : Type} (l : list (option A)) : list A :=
  match l with
  | [] => []
  | Some a :: l' => a :: present l'
  | None :: l' => present l'
  end.

Definition nonempty {A : Type} (l : list A) : bool :=
  match l with [] => false | _ => true end.

Definition getTokenAddressesSorted (now : Z) : Async (list Ranked.t) :=
  try_catch
    (cached <- read cachedRankings ;;
     last <- read lastRankingUpdate ;;
     if nonempty cached && (now - last <? RANKING_CACHE_TTL)%Z then
       ret cached
     else
       keys <- client.keys "0x" ;;
       if negb (nonempty keys) then ret []
       else
         values <- client.mGet keys ;;
         let tokens := map toRanked (present values) in
         let sorted := sort tokens in
         set_cachedRankings sorted ;;;
         set_lastRankingUpdate now ;;;
         ret sorted)
    (ret []).

(** ** Writing a social score *)

(** The object written back: the stored fields with [socialScore],
    [finalScore] and [socialAnalysis] overridden. *)
Definition updatedData (tokenData : Token.t) (socialScore : Q) (finalScore : Z)
    (socialAnalysis : AnalyzedToken) (now : Z) : Token.t :=
  Token.mk (Token.address tokenData)
           (Token.name tokenData)
           (Token.symbol tokenData)
           (Token.trendingscore tokenData)
           (Some (inject_Z finalScore))
           (Some socialScore)
           (Some (SocialAnalysis.mk
                    (sentiment socialAnalysis)
                    (sentimentScore socialAnalysis)
                    (mentionCount socialAnalysis)
                    (riskLevel socialAnalysis)
                    (recommendation socialAnalysis)
                    (confidence socialAnalysis)
                    now))
           (Token.extra tokenData).

Definition updateTokenSocialScore
    (address : string) (socialScore : Q) (socialAnalysis : AnalyzedToken)
    (now : Z) : Async unit :=
  try_catch
    (existingData <- client.get address ;;
     match existingData with
     | None => ret tt
     | Some tokenData =>
         let onChainScore := JS.or_num (Token.trendingscore tokenData) 0 in
         let finalScore :=
           JS.Math_round ((onChainScore * 0.6) + (socialScore * 0.4)) in
         client.set address
           (updatedData tokenData socialScore finalScore socialAnalysis now) ;;;
         set_cachedRankings []
     end)
    (ret tt).

(** The fused score computed by the write for a stored record. *)
Definition fused (tokenData : Token.t) (socialScore : Q) : Z :=
  JS.Math_round (JS.or_num (Token.trendingscore tokenData) 0 * 0.6 + socialScore * 0.4).

(** ** The social refresh of a rank window *)

(** [String.prototype.toLowerCase] on strings of ASCII characters. *)
Definition lower_ascii (c : Ascii.ascii) : Ascii.ascii :=
  let n := Ascii.nat_of_ascii c in
  if ((65 <=? n) && (n <=? 90))%nat then Ascii.ascii_of_nat (n + 32) else c.

Fixpoint toLowerCase (s : string) : string :=
  match s with
  | EmptyString => EmptyString
  | String c s' => String (lower_ascii c) (toLowerCase s')
  end.

(** An end rank: a number or [Infinity]. *)
Inductive Bound : Type :=
| Finite (n : nat)
| Infinity.

(** [Array.prototype.slice(start, end)] for non-negative bounds. *)
Definition slice {A : Type} (start : nat) (end_ : Bound) (l : list A) : list A :=
  match end_ with
  | Finite e => skipn start (firstn e l)
  | Infinity => skipn start l
  end.

Definition nonblank (s : string) : bool :=
  match s with EmptyString => false | _ => true end.

(** [a || b] on plain strings. *)
Definition or_string (a b : string) : string :=
  if nonblank a then a else b.

(** The [Map] filled by [analysis.topTrending.forEach]: a later [set] on the
    same key wins, so the newest binding is kept in front. *)
Definition analysisMap (topTrending : list AnalyzedToken)
  : list (string * AnalyzedToken) :=
  fold_left
    (fun m token =>
       (toLowerCase (JS.or_str (ticker token) (tokenName token)), token) :: m)
    topTrending [].

(** The placeholder analysis of a token without social data. *)
Definition noMentions (token : Ranked.t) : AnalyzedToken :=
  mkAnalyzedToken
    (or_string (Ranked.name token) (or_string (Ranked.symbol token) "Unknown"))
    None "neutral" (Some 0) (Some 0) (Some 0) (Some 0) (Some 0)
    (Some "medium") "hold" "No recent social media mentions".

Fixpoint forEach {A : Type} (f : A -> Async unit) (l : list A) : Async unit :=
  match l with
  | [] => ret tt
  | a :: l' => f a ;;; forEach f l'
  end.

Section Refresh.

(** The social collaborators ([fetaclTokenData] then
    [aggregator.analyzeTrends().topTrending]) called with the tickers of the
    window; [None] when the call fails. *)
Variable analyzeTrends : list string -> option (list AnalyzedToken).

Definition fetchAnalysis (tickers : list string) : Async (list AnalyzedToken) :=
  match analyzeTrends tickers with
  | Some a => ret a
  | None => throw
  end.

(** The body run for one token of the window.  Each run ends in a write that
    overrides [socialScore], [finalScore] and [socialAnalysis] from values
    that no other run changes, so running the bodies of [Promise.all] one
    after the other leaves the same store. *)
Definition refreshToken (m : list (string * AnalyzedToken)) (now : Z)
    (token : Ranked.t) : Async unit :=
  let tokenKey :=
    toLowerCase (or_string (Ranked.symbol token) (or_string (Ranked.name token) EmptyString)) in
  let socialAnalysis := lookup tokenKey m in
  let finalAnalysis :=
    match socialAnalysis with
    | Some a => a
    | None => noMentions token
    end in
  let socialScore :=
    match socialAnalysis with
    | Some a => inject_Z (calculateSocialScore a)
    | None => 30
    end in
  updateTokenSocialScore (Ranked.address token) socialScore finalAnalysis now.

Definition updateTokensByRankRange (startRank : nat) (endRank : Bound) (now : Z)
  : Async unit :=
  try_catch
    (sortedTokens <- getTokenAddressesSorted now ;;
     let tokensToUpdate := slice startRank endRank sortedTokens in
     if negb (nonempty tokensToUpdate) then ret tt
     else
       let tokenTickers :=
         filter nonblank
           (map (fun t => or_string (Ranked.symbol t) (or_string (Ranked.name t) EmptyString))
                tokensToUpdate) in
       if negb (nonempty tokenTickers) then ret tt
       else
         topTrending <- fetchAnalysis tokenTickers ;;
         forEach (refreshToken (analysisMap topTrending) now) tokensToUpdate)
    (ret tt).

End Refresh.

(** The three timers of [startScheduledUpdates]: rank window and period in
    milliseconds. *)
Inductive Tier : Type := HIGH | MEDIUM | LOW.

Definition tierWindow (t : Tier) : nat * Bound :=
  match t with
  | HIGH => (0%nat, Finite 20)
  | MEDIUM => (20%nat, Finite 100)
  | LOW => (100%nat, Infinity)
  end.

Definition tierPeriod (t : Tier) : Z :=
  match t with
  | HIGH => (5 * 60 * 1000)%Z
  | MEDIUM => (20 * 60 * 1000)%Z
  | LOW => (30 * 60 * 1000)%Z
  end.

(** One tick of the timer of a tier. *)
Definition scheduledUpdate (analyzeTrends : list string -> option (list AnalyzedToken))
    (t : Tier) (now : Z) : Async unit :=
  updateTokensByRankRange analyzeTrends (fst (tierWindow t)) (snd (tierWindow t)) now.

(** ** The [/top-tokens] route *)

Inductive Response : Type :=
| Json (body : list (Token.t * nat))
| Status500.

Fixpoint withRank (i : nat) (l : list Token.t) : list (Token.t * nat) :=
  match l with
  | [] => []
  | t :: l' => (t, S i) :: withRank (S i) l'
  end.

(** [limit] is the value of [parseInt(req.query.limit) || 50]. *)
Definition top_tokens (limit : nat) (now : Z) : World -> Response * World :=
  fun w =>
    match
      (tokens <- getTokenAddressesSorted now ;;
       let topAddresses := slice 0 (Finite limit) tokens in
       values <- client.mGet (map Ranked.address topAddresses) ;;
       ret (withRank 0 (present values))) w
    with
    | (Ok body, w') => (Json body, w')
    | (Thrown, w') => (Status500, w')
    end.

(** ** The formulas of the specification *)

Module Spec.

Definition clamp (lo hi x : Z) : Z := Z.max lo (Z.min hi x).

(** 1.0 for low, 0.8 for medium, 0.5 for high, 0.2 for extreme, and 0.8 for
    any other label. *)
Definition riskPenalty (label : string) : Q :=
  if String.eqb label "low" then 1
  else if String.eqb label "medium" then 0.8
  else if String.eqb label "high" then 0.5
  else if String.eqb label "extreme" then 0.2
  else 0.8.

Definition socialScore
    (trendingScore sentimentScore mentionCount avgEngagement confidence : Q)
    (label : string) : Z :=
  clamp 0 100
    (JS.Math_round
       (riskPenalty label *
        (trendingScore * 0.3 + (sentimentScore + 1) * 50 * 0.25 +
         Qmin mentionCount 100 * 0.2 + Qmin (avgEngagement / 10) 100 * 0.15 +
         confidence * 100 * 0.1))).

(** round(onChainScore * 0.6 + socialScore * 0.4) *)
Definition fusion (onChainScore socialScore : Q) : Z :=
  JS.Math_round (onChainScore * 0.6 + socialScore * 0.4).

(** The ranking key in words: the stored finalScore if present and non-zero,
    otherwise the stored trendingscore if present and non-zero, otherwise 0. *)
Definition rankingKey (v : Token.t) : Q :=
  match Token.finalScore v with
  | Some f =>
      if Qeq_bool f 0 then
        match Token.trendingscore v with
        | Some t => if Qeq_bool t 0 then 0 else t
        | None => 0
        end
      else f
  | None =>
      match Token.trendingscore v with
      | Some t => if Qeq_bool t 0 then 0 else t
      | None => 0
      end
  end.

End Spec.

(** ** Derived notions used in the statements *)

(** The keys matched by [KEYS 0x*], in enumeration order. *)
Definition tokenKeys (d : list (string * Token.t)) : list string :=
  filter (String.prefix "0x") (map fst d).

(** The records of the Score Store as a ranked read fetches them. *)
Definition records (d : list (string * Token.t)) : list Token.t :=
  present (map (fun k => lookup k d) (tokenKeys d)).

(** The order a rebuild computes from the store. *)
Definition rebuild (d : list (string * Token.t)) : list Ranked.t :=
  sort (map toRanked (records d)).

(** The cached snapshot is served: it is non-empty and younger than the
    freshness window. *)
Definition cacheFresh (now : Z) (w : World) : bool :=
  nonempty (cachedRankings w) && (now - lastRankingUpdate w <? RANKING_CACHE_TTL)%Z.

(** Ranking order of the sort: a higher score comes first. *)
Definition desc (a b : Ranked.t) : Prop :=
  Ranked.finalScore b <= Ranked.finalScore a.

(** The entries of a ranking that carry the score [k]. *)
Definition withScore (k : Q) (l : list Ranked.t) : list Ranked.t :=
  filter (fun e => Qeq_bool (Ranked.finalScore e) k) l.

(** The order the specification asks of a ranking: higher score first, equal
    scores by ascending address. *)
Definition byScoreThenAddress (a b : Ranked.t) : Prop :=
  Ranked.finalScore b < Ranked.finalScore a \/
  (Ranked.finalScore a == Ranked.finalScore b /\
   String.leb (Ranked.address a) (Ranked.address b) = true).

(** ** Sample data *)

Module Sample.

Definition token (addr nm sym : string) (onChain final : Q) : Token.t :=
  Token.mk addr (Some nm) (Some sym) (Some onChain) (Some final) None None [].

(** The record of scenario 1: on-chain score 66, not yet fused. *)
Definition pepe : Token.t := token "0xA" "Pepe" "PEPE" 66 66.

Definition tokA : Token.t := token "0xA" "Alpha" "ALPHA" 80 80.
Definition tokB : Token.t := token "0xB" "Beta" "BETA" 80 80.
Definition tokC : Token.t := token "0xC" "Gamma" "GAMMA" 50 50.

Definition bullish : AnalyzedToken :=
  mkAnalyzedToken "Pepe" (Some "PEPE") "bullish" (Some 0.6) (Some 80)
    (Some 250) (Some 420) (Some 0.9) (Some "high") "buy" "Strong momentum".

(** A reachable store holding [pepe], nothing cached. *)
Definition onePepe : World := mkWorld [("0xA", pepe)] true [] [] 0.

(** The three records of scenario 3, enumerated C, B, A. *)
Definition storeCBA : World :=
  mkWorld [("0xC", tokC); ("0xB", tokB); ("0xA", tokA)] true [] [] 0.

(** The same records enumerated C, A, B. *)
Definition storeCAB : World :=
  mkWorld [("0xC", tokC); ("0xA", tokA); ("0xB", tokB)] true [] [] 0.

(** A snapshot built at time 0 that no longer matches the store. *)
Definition staleSnapshot : World :=
  mkWorld [("0xA", tokA)] true [] [toRanked tokC] 0.

(** A snapshot built at time 0 over a store that has since been emptied. *)
Definition emptiedStore : World :=
  mkWorld [] true [] [toRanked tokC] 0.

(** The store does not answer; a snapshot built at time 0 is cached. *)
Definition downWithSnapshot : World :=
  mkWorld [("0xA", tokA)] false [] [toRanked tokC] 0.

(** The store does not answer and nothing is cached. *)
Definition downNoSnapshot : World :=
  mkWorld [("0xA", tokA)] false [] [] 0.

End Sample.

(** Records at the different stages of scoring: not yet fused, fused to zero,
    without any score, and fused. *)
Module RankingSample.

Definition onlyOnChain : Token.t :=
  Token.mk "0x1" None None (Some 40) None None None [].

Definition zeroFinal : Token.t :=
  Token.mk "0x2" None None (Some 70) (Some 0) None None [].

Definition bare : Token.t :=
  Token.mk "0x3" None None None None None None [].

Definition fusedRecord : Token.t :=
  Token.mk "0x4" None None (Some 10) (Some 55) (Some 90) None [].

Definition store : World :=
  mkWorld [("0x1", onlyOnChain); ("0x2", zeroFinal); ("0x3", bare);
           ("0x4", fusedRecord)] true [] [] 0.

End RankingSample.

(** ** Notions for the refresh cycle *)

(** The store holds a record under [k]. *)
Definition has (k : string) (d : list (string * Token.t)) : bool :=
  match lookup k d with Some _ => true | None => false end.

(** The record was last written by the social path at time [now]. *)
Definition refreshedAt (now : Z) (r : Token.t) : Prop :=
  exists sa, Token.socialAnalysis r = Some sa /\ SocialAnalysis.lastUpdated sa = now.

(** The ticker under which a ranking entry is searched and matched. *)
Definition tickerOf (t : Ranked.t) : string :=
  or_string (Ranked.symbol t) (or_string (Ranked.name t) EmptyString).

(** What the cycle settles for a token: the analysis found under its ticker,
    or the placeholder, and the score that goes with it. *)
Definition finalAnalysisOf (m : list (string * AnalyzedToken)) (t : Ranked.t)
  : AnalyzedToken :=
  match lookup (toLowerCase (tickerOf t)) m with
  | Some a => a
  | None => noMentions t
  end.

Definition socialScoreOf (m : list (string * AnalyzedToken)) (t : Ranked.t) : Q :=
  match lookup (toLowerCase (tickerOf t)) m with
  | Some a => inject_Z (calculateSocialScore a)
  | None => 30
  end.

(** The value the cycle writes over the record [r] for the token [t]. *)
Definition written (m : list (string * AnalyzedToken)) (now : Z)
    (t : Ranked.t) (r : Token.t) : Token.t :=
  updatedData r (socialScoreOf m t) (fused r (socialScoreOf m t))
    (finalAnalysisOf m t) now.

(** The staleness rule of the specification: a record is due for the social
    refresh of a tier when it has no social timestamp or its timestamp is at
    least the tier's period old. *)
Definition due (t : Tier) (now : Z) (r : Token.t) : Prop :=
  match Token.socialAnalysis r with
  | None => True
  | Some sa => (tierPeriod t <= now - SocialAnalysis.lastUpdated sa)%Z
  end.

Module Cycle.

(** [pepe] after a social refresh at time 940000 that gave it score 90. *)
Definition fusedPepe : Token.t :=
  updatedData Sample.pepe 90 76 Sample.bullish 940000.

Definition recentlyRefreshed : World :=
  mkWorld [("0xA", fusedPepe)] true [] [] 0.

(** The social collaborators find nothing for any ticker. *)
Definition noResults (tickers : list string) : option (list AnalyzedToken) :=
  Some [].

End Cycle.

(** The tickers sent to the social collaborators for a window. *)
Definition tickersOf (window : list Ranked.t) : list string :=
  filter nonblank (map tickerOf window).

(** ** The other routes of the service *)

(** [/clear-cache] *)
Definition clear_cache (w : World) : World :=
  mkWorld (db w) (up w) (sets w) [] 0.

(** [/token/:address] *)
Inductive TokenResponse : Type :=
| TokenJson (body : Token.t)
| TokenStatus404
| TokenStatus500.

Definition token_route (address : string) : World -> TokenResponse * World :=
  fun w =>
    match client.get address w with
    | (Ok (Some data), w') => (TokenJson data, w')
    | (Ok None, w') => (TokenStatus404, w')
    | (Thrown, w') => (TokenStatus500, w')
    end.

(** [/update-social-scores] for a body that leaves each bound out or gives it
    as a non-negative integer; a bound left out defaults to [0], respectively
    [Infinity]. *)
Inductive UpdateResponse : Type :=
| UpdateSuccess
| UpdateStatus500.

Definition update_social_scores
    (analyzeTrends : list string -> option (list AnalyzedToken))
    (startRank : option nat) (endRank : option Bound) (now : Z)
  : World -> UpdateResponse * World :=
  fun w =>
    match
      updateTokensByRankRange analyzeTrends
        (JS.default startRank 0%nat) (JS.default endRank Infinity) now w
    with
    | (Ok _, w') => (UpdateSuccess, w')
    | (Thrown, w') => (UpdateStatus500, w')
    end.

(** The fields of a stored record that the social path copies. *)
Definition sameOnChain (r r' : Token.t) : Prop :=
  Token.address r' = Token.address r /\
  Token.name r' = Token.name r /\
  Token.symbol r' = Token.symbol r /\
  Token.trendingscore r' = Token.trendingscore r /\
  Token.extra r' = Token.extra r.

(** A reachable store with a fresh snapshot of [pepe] and the collaborators
    down. *)
Definition collaboratorsDown (tickers : list string) : option (list AnalyzedToken) :=
  None.

(** What a run of social writes does to the process state: the store keeps
    its keys and the on-chain fields of every record, SET commands are only
    added, and a run that issued one has emptied the cached ranking. *)
Definition writesOnly (w w' : World) : Prop :=
  up w' = up w /\
  lastRankingUpdate w' = lastRankingUpdate w /\
  map fst (db w') = map fst (db w) /\
  (forall k r, lookup k (db w) = Some r ->
     exists r', lookup k (db w') = Some r' /\ sameOnChain r r') /\
  exists new,
    sets w' = (sets w ++ new)%list /\
    (new = [] -> w' = w) /\
    (new <> [] -> up w = true /\ cachedRankings w' = []).



(** Each record of the store sits under its own address. *)
Definition keyedByAddress (d : list (string * Token.t)) : Prop :=
  forall k r, lookup k d = Some r -> Token.address r = k.

(** * Fetching social posts (apps/OffChain/src/fetchSocials.ts) *)

Module Tweet.
Record metrics : Type := mkMetrics {
  like_count : option Q;
  retweet_count : option Q;
  reply_count : option Q
}.
Record t : Type := mk {
  id : string;
  text : string;
  author_id : option string;
  created_at : option string;
  public_metrics : option metrics
}.
End Tweet.

Module Submission.
Record t : Type := mk {
  id : string;
  title : string;
  selftext : option string;
  author_name : string;
  created_utc : Q;
  ups : option Q;
  num_comments : option Q;
  permalink : string
}.
End Submission.

Inductive Platform : Type := twitter | reddit.

Module Post.
Record engagement : Type := mkEngagement {
  likes : option Q;
  retweets : option Q;
  comments : option Q;
  upvotes : option Q
}.
Record t : Type := mk {
  id : string;
  platform : Platform;
  content : string;
  author : string;
  timestamp : string;
  engagement_ : engagement;
  url : option string
}.
End Post.

Definition memeCoins : list string :=
  [ "dogecoin"; "DOGE"; "shiba inu"; "SHIB"; "pepecoin"; "PEPE";
    "floki"; "FLOKI"; "bonk"; "BONK"; "dogwifhat"; "WIF";
    "brett"; "mog"; "popcat"; "myro"; "wen"; "book of meme"; "BOME";
    "cats"; "mew"; "giga"; "moodeng"; "goat"; "act"; "pnut";
    "catcoin"; "grumpy cat"; "keyboard cat"; "nyan cat";
    "kishu inu"; "akita inu"; "babydoge"; "hokkaidu inu";
    "samoyedcoin"; "pitbull token"; "husky"; "corgi coin" ].

Definition subreddits : list string :=
  [ "CryptoCurrency"; "Bitcoin"; "ethtrader"; "CryptoMarkets";
    "SatoshiStreetBets"; "CryptoMoonShots"; "CryptoCurrencyTrading";
    "altcoin"; "defi"; "NFT"; "dogecoin"; "SHIBArmy";
    "wallstreetbets"; "memecoins"; "CryptoMars" ].

Definition cryptoTerms : list string :=
  [ "meme coin"; "memecoin"; "shitcoin"; "crypto pump";
    "pump signal"; "moon mission"; "to the moon"; "diamond hands";
    "paper hands"; "hodl"; "degen"; "ape in"; "rugpull" ].

Definition trendingHashtags : list string :=
  [ "#memecoin"; "#memecoinseason"; "#altseason"; "#cryptopump";
    "#100x"; "#moonshot"; "#defi"; "#degen"; "#crypto" ].

(** [x?.f] *)
Definition chain {A B : Type} (x : option A) (f : A -> option B) : option B :=
  match x with
  | Some a => f a
  | None => None
  end.

(** [Array.from(new Map(items.map(x => [id(x), x])).values())]: a [Map]
    keeps a key at the place of its first insertion and the value of its
    last. *)
Definition setAll {A : Type} (id : A -> string) (items : list A)
  : list (string * A) :=
  fold_left (fun m x => upsert (id x) x m) items [].

Definition uniqueById {A : Type} (id : A -> string) (items : list A) : list A :=
  map snd (setAll id items).

(** The double quote character of the query templates. *)
Definition dquote : string := String (Ascii.ascii_of_nat 34) EmptyString.

(** [keywords.slice(0, n).map(k => `"${k}"`).join(' OR ') + ' -is:retweet lang:en'] *)
Definition searchQuery (n : nat) (keywords : list string) : string :=
  String.concat " OR " (map (fun k => dquote ++ k ++ dquote) (firstn n keywords))
  ++ " -is:retweet lang:en".

Section Fetch.

(** Library and platform functions used by the conversions:
    [new Date().toISOString()], [new Date(ms).toISOString()] and
    [String.prototype.trim]. *)
Variable nowISO : string.
Variable toISOString : Q -> string.
Variable trim : string -> string.

(** The answers of the platforms during one run, by request.
    The Twitter client seen through [searchTweets]: the tweets pushed to the
    collection for a query and a page size, up to the end of the results or
    to the error that [searchTweets] catches. *)
Variable twitterSearch : string -> nat -> list Tweet.t.

(** The Reddit client: [getSubreddit] answers or throws; a search in a
    subreddit and the hot list return posts or throw. *)
Variable getSubreddit : string -> bool.
Variable subredditSearch : string -> string -> option (list Submission.t).
Variable getHot : string -> option (list Submission.t).

Definition convertTweetToSocialPost (tweet : Tweet.t) : Post.t :=
  Post.mk (Tweet.id tweet)
          twitter
          (Tweet.text tweet)
          (JS.or_str (Tweet.author_id tweet) "unknown")
          (JS.or_str (Tweet.created_at tweet) nowISO)
          (Post.mkEngagement
             (Some (JS.or_num (chain (Tweet.public_metrics tweet) Tweet.like_count) 0))
             (Some (JS.or_num (chain (Tweet.public_metrics tweet) Tweet.retweet_count) 0))
             (Some (JS.or_num (chain (Tweet.public_metrics tweet) Tweet.reply_count) 0))
             None)
          (Some ("https://twitter.com/i/web/status/" ++ Tweet.id tweet)).

Definition newline : string := String (Ascii.ascii_of_nat 10) EmptyString.

Definition convertRedditToSocialPost (post : Submission.t) : Post.t :=
  Post.mk (Submission.id post)
          reddit
          (trim (Submission.title post ++ newline ++ newline
                 ++ JS.or_str (Submission.selftext post) EmptyString))
          (Submission.author_name post)
          (toISOString (Submission.created_utc post * 1000))
          (Post.mkEngagement None None
             (Some (JS.or_num (Submission.num_comments post) 0))
             (Some (JS.or_num (Submission.ups post) 0)))
          (Some ("https://reddit.com" ++ Submission.permalink post)).

Definition fetchTweets (memeCoins cryptoTerms trendingHashtags : list string)
  : list Post.t :=
  let allTweets :=
    (twitterSearch (searchQuery 3 memeCoins) 3
     ++ twitterSearch (searchQuery 2 cryptoTerms) 3)%list in
  let uniqueTweets := uniqueById Tweet.id allTweets in
  map convertTweetToSocialPost uniqueTweets.

(** The searches of one subreddit: the results of each coin are pushed until
    a search throws, which ends the subreddit. *)
Fixpoint searchCoins (sub : string) (coins : list string) : list Submission.t :=
  match coins with
  | [] => []
  | coin :: rest =>
      match subredditSearch sub coin with
      | Some results => (results ++ searchCoins sub rest)%list
      | None => []
      end
  end.

Definition searchSubreddit (sub : string) (coins : list string)
  : list Submission.t :=
  if getSubreddit sub then searchCoins sub coins else [].

Definition hotPosts : list Submission.t :=
  if getSubreddit "CryptoMoonShots" then
    match getHot "CryptoMoonShots" with
    | Some posts => posts
    | None => []
    end
  else [].

Definition fetchReddit (memeCoins cryptoTerms subreddits : list string)
  : list Post.t :=
  let allPosts :=
    (flat_map (fun sub => searchSubreddit sub (firstn 3 memeCoins))
              (firstn 2 subreddits)
     ++ hotPosts)%list in
  let uniquePosts := uniqueById Submission.id allPosts in
  map convertRedditToSocialPost uniquePosts.

Definition fetchAllSocialData : list Post.t :=
  let tweets := fetchTweets memeCoins cryptoTerms trendingHashtags in
  let redditPosts := fetchReddit memeCoins cryptoTerms subreddits in
  (firstn 5 tweets ++ firstn 10 redditPosts)%list.

Definition fetaclTokenData (memecoins cryptoTerms subreddits : list string)
  : list Post.t :=
  let tweets := fetchTweets memecoins cryptoTerms trendingHashtags in
  let redditPosts := fetchReddit memecoins cryptoTerms subreddits in
  (tweets ++ redditPosts)%list.

End Fetch.

(** Sample answers of the platforms. *)
Module FetchSample.

Definition tweet1 : Tweet.t :=
  Tweet.mk "t1" "DOGE to the moon" (Some "u1") (Some "2025-01-01T00:00:00.000Z")
    (Some (Tweet.mkMetrics (Some 12) (Some 3) None)).

Definition tweet2 : Tweet.t :=
  Tweet.mk "t2" "shiba inu pump" None None None.

(** The tweet [t1] delivered again, with newer metrics. *)
Definition tweet1again : Tweet.t :=
  Tweet.mk "t1" "DOGE to the moon" (Some "u1") (Some "2025-01-01T00:00:00.000Z")
    (Some (Tweet.mkMetrics (Some 40) (Some 9) (Some 2))).

Definition hot1 : Submission.t :=
  Submission.mk "r1" "New gem" (Some "details") "alice" 1735689600
    (Some 55) (Some 7) "/r/CryptoMoonShots/comments/r1".

Definition nowISO : string := "2025-01-02T00:00:00.000Z".
Definition toISOString (ms : Q) : string := "2025-01-01T00:00:00.000Z".
Definition trim (s : string) : string := s.

(** The coin search delivers [t1] and [t2], the term search [t1] again. *)
Definition twitterSearch (query : string) (maxResults : nat) : list Tweet.t :=
  if String.eqb query (searchQuery 3 memeCoins) then [tweet1; tweet2]
  else [tweet1again].

(** Subreddits answer, every search throws, the hot list holds one post. *)
Definition getSubreddit (sub : string) : bool := true.
Definition subredditSearch (sub coin : string) : option (list Submission.t) := None.
Definition getHot (sub : string) : option (list Submission.t) := Some [hot1].

End FetchSample.

Module IsolationSample.

Definition post1 : Submission.t :=
  Submission.mk "d1" "dogecoin news" None "bob" 1735689600 (Some 5) None
    "/r/CryptoCurrency/comments/d1".

(** The first subreddit answers and finds [post1] for the first coin, then
    throws; the second subreddit does not answer; no hot list. *)
Definition getSubreddit (sub : string) : bool := String.eqb sub "CryptoCurrency".

Definition subredditSearch (sub coin : string) : option (list Submission.t) :=
  if String.eqb coin "dogecoin" then Some [post1] else None.

Definition getHot (sub : string) : option (list Submission.t) := None.

End IsolationSample.

(** * The personal assistant agent (class [PersonalAssistantAgent])

    The state kept by the agent, its message handlers and the statistics it
    derives.  The records carry the fields this code reads or writes; the
    event bus, on which [handleTokenDiscovery] publishes after it has
    updated the state, is not part of the state. *)

Module Agent.

Record MemecoinData : Type := mkMemecoin {
  address : string;
  symbol : string;
  name : string;
  dex : string;
  timestamp : option Z;
  discoveredAt : option Z
}.

Record LiquidityData : Type := mkLiquidity {
  yieldAddress : string;      (* tokenAddress *)
  apy : Q;
  tvl : Q
}.

Record RiskData : Type := mkRisk {
  riskAddress : string;       (* tokenAddress *)
  riskScore : Q
}.

Record AlertSignal : Type := mkAlert {
  alertAddress : string;      (* tokenAddress *)
  alertSymbol : option string;
  alertType : string;
  yieldData : option LiquidityData;
  riskData : option RiskData
}.

Record AggregatedTokenData : Type := mkAggregated {
  discovery : MemecoinData;
  yield : option LiquidityData;
  risk : option RiskData;
  alert : option AlertSignal;
  lastUpdated : Z
}.

(** A message, by [messageType], with the data that type carries. *)
Inductive MessageData : Type :=
| token_discovery (d : MemecoinData)
| yield_report (y : LiquidityData)
| risk_report (r : RiskData)
| alert_decision (a : AlertSignal)
| settlement_request
| other_type (messageType : string).

Record A2AMessagePayload : Type := mkPayload {
  data : MessageData;
  agentId : string;
  sentAt : Z;                 (* timestamp *)
  contextId : string
}.

Record State : Type := mkState {
  aggregatedData : list (string * AggregatedTokenData);   (* a Map *)
  activityLog : list A2AMessagePayload
}.

Definition set_aggregatedData (m : list (string * AggregatedTokenData))
    (s : State) : State :=
  mkState m (activityLog s).

Definition handleTokenDiscovery (tokenData : MemecoinData) (now : Z)
    (s : State) : State :=
  set_aggregatedData
    (upsert (address tokenData)
       (mkAggregated tokenData None None None now) (aggregatedData s)) s.

Definition handleYieldReport (yieldData : LiquidityData) (now : Z)
    (s : State) : State :=
  let tokenAddress := yieldAddress yieldData in
  match lookup tokenAddress (aggregatedData s) with
  | Some aggregated =>
      set_aggregatedData
        (upsert tokenAddress
           (mkAggregated (discovery aggregated) (Some yieldData)
              (risk aggregated) (alert aggregated) now)
           (aggregatedData s)) s
  | None => s
  end.

Definition handleRiskReport (riskData : RiskData) (now : Z)
    (s : State) : State :=
  let tokenAddress := riskAddress riskData in
  match lookup tokenAddress (aggregatedData s) with
  | Some aggregated =>
      set_aggregatedData
        (upsert tokenAddress
           (mkAggregated (discovery aggregated) (yield aggregated)
              (Some riskData) (alert aggregated) now)
           (aggregatedData s)) s
  | None => s
  end.

Definition handleAlertDecision (alertData : AlertSignal) (now : Z)
    (s : State) : State :=
  let tokenAddress := alertAddress alertData in
  let aggregated :=
    match lookup tokenAddress (aggregatedData s) with
    | Some a => a
    | None =>
        mkAggregated
          (mkMemecoin tokenAddress
             (JS.or_str (alertSymbol alertData) tokenAddress)
             (JS.or_str (alertSymbol alertData) tokenAddress)
             "unknown" (Some now) None)
          None None None now
    end in
  set_aggregatedData
    (upsert tokenAddress
       (mkAggregated (discovery aggregated)
          (match yieldData alertData with
           | Some y => Some y
           | None => yield aggregated
           end)
          (match riskData alertData with
           | Some r => Some r
           | None => risk aggregated
           end)
          (Some alertData) now)
       (aggregatedData s)) s.

Definition handleSettlementUpdate (s : State) : State := s.

Definition processMessage (payload : A2AMessagePayload) (now : Z)
    (s : State) : State :=
  let log := payload :: activityLog s in
  let log := if (100 <? List.length log)%nat then firstn 100 log else log in
  let s := mkState (aggregatedData s) log in
  match data payload with
  | token_discovery d => handleTokenDiscovery d now s
  | yield_report y => handleYieldReport y now s
  | risk_report r => handleRiskReport r now s
  | alert_decision a => handleAlertDecision a now s
  | settlement_request => handleSettlementUpdate s
  | other_type _ => s
  end.

Definition getTokenAnalysis (tokenAddress : string) (s : State)
  : option AggregatedTokenData :=
  lookup tokenAddress (aggregatedData s).

Definition getTrackedTokensCount (s : State) : nat :=
  List.length (aggregatedData s).

(** [Array.from(this.aggregatedData.values())] *)
Definition values (s : State) : list AggregatedTokenData :=
  map snd (aggregatedData s).

(** [token.yield && token.risk] *)
Definition valid (token : AggregatedTokenData) : bool :=
  match yield token, risk token with
  | Some _, Some _ => true
  | _, _ => false
  end.

Inductive Trend : Type := UP | DOWN | STABLE.

(** [token.discovery.discoveredAt && Date.now() - discoveredAt < 3600000] *)
Definition recent (now : Z) (token : AggregatedTokenData) : bool :=
  match discoveredAt (discovery token) with
  | Some d => negb (d =? 0)%Z && (now - d <? 3600000)%Z
  | None => false
  end.

Definition determineTrendDirection (now : Z) (tokenData : list AggregatedTokenData)
  : Trend :=
  let recentTokens := List.length (filter (recent now) tokenData) in
  if (5 <? recentTokens)%nat then UP
  else if (recentTokens <? 2)%nat then DOWN
  else STABLE.

(** [counts[i]++] on an array of numbers, for an index within it. *)
Fixpoint incr (i : nat) (counts : list nat) : list nat :=
  match counts, i with
  | [], _ => []
  | c :: rest, O => S c :: rest
  | c :: rest, S i' => c :: incr i' rest
  end.

Definition apyBucket (a : Q) : nat :=
  if Qle_bool a 10 then 0
  else if Qle_bool a 25 then 1
  else if Qle_bool a 50 then 2
  else if Qle_bool a 100 then 3
  else 4.

(** The [data] of the chart of [generateAPYDistributionChart]. *)
Definition apyDistribution (tokenData : list AggregatedTokenData) : list nat :=
  fold_left
    (fun counts token =>
       match yield token with
       | None => counts
       | Some y => incr (apyBucket (apy y)) counts
       end)
    tokenData [0; 0; 0; 0; 0]%nat.

End Agent.

Module AgentSample.

Definition doge : Agent.MemecoinData :=
  Agent.mkMemecoin "0xD" "DOGE" "Dogecoin" "uniswap" (Some 1000%Z) (Some 1000%Z).

Definition dogeYield : Agent.LiquidityData := Agent.mkLiquidity "0xD" 42 150000.
Definition dogeRisk : Agent.RiskData := Agent.mkRisk "0xD" 35.
Definition dogeAlert : Agent.AlertSignal :=
  Agent.mkAlert "0xD" (Some "DOGE") "BUY" None None.

Definition payload (d : Agent.MessageData) : Agent.A2AMessagePayload :=
  Agent.mkPayload d "scout" 1000 "ctx".

Definition empty : Agent.State := Agent.mkState [] [].

(** [doge] tracked with its yield collected. *)
Definition tracking : Agent.State :=
  Agent.processMessage (payload (Agent.yield_report dogeYield)) 2000
    (Agent.processMessage (payload (Agent.token_discovery doge)) 1000 empty).

End AgentSample.

(** The chart of [generateTimelineChart]. *)
Module Timeline.

(** An element of a JavaScript array of numbers: a number, [NaN], or a
    hole left by a write past the end. *)
Inductive Slot : Type :=
| Num (n : nat)
| NaN
| Hole.

(** [arr[i]++]: a numeric slot is incremented; a hole or a slot past the end
    reads [undefined], so it becomes [NaN], the array growing up to it. *)
Fixpoint bump (i : nat) (arr : list Slot) : list Slot :=
  match arr, i with
  | [], O => [NaN]
  | [], S i' => Hole :: bump i' []
  | x :: rest, O =>
      match x with
      | Num n => Num (S n) :: rest
      | _ => NaN :: rest
      end
  | x :: rest, S i' => x :: bump i' rest
  end.

Definition hourlyData (now : Z) (tokenData : list Agent.AggregatedTokenData)
  : list Slot :=
  fold_left
    (fun arr token =>
       match Agent.discoveredAt (Agent.discovery token) with
       | Some d =>
           if (d =? 0)%Z then arr
           else
             let hoursAgo := ((now - d) / 3600000)%Z in
             if (hoursAgo <? 24)%Z then bump (Z.to_nat (23 - hoursAgo)) arr
             else arr
       | None => arr
       end)
    tokenData (repeat (Num 0) 24).

(** The token was discovered at a known time less than 24 hours before
    [now]. *)
Definition inLastDay (now : Z) (token : Agent.AggregatedTokenData) : bool :=
  match Agent.discoveredAt (Agent.discovery token) with
  | Some d => negb (d =? 0)%Z && ((now - d) / 3600000 <? 24)%Z
  | None => false
  end.

End Timeline.

Module StatsSample.

(** [doge] with yield and risk collected. *)
Definition full : Agent.AggregatedTokenData :=
  Agent.mkAggregated AgentSample.doge (Some AgentSample.dogeYield)
    (Some AgentSample.dogeRisk) None 30.

(** A token known only by its discovery. *)
Definition bare : Agent.AggregatedTokenData :=
  Agent.mkAggregated AgentSample.doge None None None 10.

End StatsSample.

(** * The score computations on binary64 numbers

    The functions that compute or write a score, embedded on IEEE 754
    double-precision numbers (the primitive floats), with the lookup of a
    property going through [Object.prototype] and
    [String.prototype.toLowerCase] taken as a parameter.  A number stored in
    Redis is still given by its exact value: [JSON.parse] turns it into the
    nearest double, [JSON.stringify] writes a finite double back and writes
    [NaN] and the infinities as [null]. *)

Module IEEE.

Import Floats.
Local Open Scope float_scope.
Set Warnings "-inexact-float".

(** ** Numbers *)

(** The exact value of a finite double [(-1)^s * m * 2^e]. *)
Definition exactValue (s : bool) (m : positive) (e : Z) : Q :=
  let n := if s then Z.neg m else Z.pos m in
  if (0 <=? e)%Z then inject_Z (n * 2 ^ e) else Qred (n # Z.to_pos (2 ^ (- e))).

(** [JSON.parse(JSON.stringify(x))] on a number: its value, or [null]. *)
Definition toJSON (x : float) : option Q :=
  match Prim2SF x with
  | S754_zero _ => Some 0%Q
  | S754_finite s m e => Some (exactValue s m e)
  | S754_infinity _ => None
  | S754_nan => None
  end.

(** [JSON.parse] of a number: the double nearest to its value. *)
Definition ofJSON (q : Q) : float :=
  let num :=
    match Qnum q with
    | Z0 => S754_zero false
    | Zpos p => S754_finite false p 0
    | Zneg p => S754_finite true p 0
    end in
  SF2Prim (SFdiv prec emax num (S754_finite false (Qden q) 0)).

(** Truthiness of a number: [0], [-0] and [NaN] are falsy. *)
Definition truthy (x : float) : bool := negb (is_zero x || is_nan x).

(** [a || b] on numbers, [a] possibly [undefined]. *)
Definition or_number (a : option float) (b : float) : float :=
  match a with
  | Some x => if truthy x then x else b
  | None => b
  end.

(** [Math.round]: the integral number nearest to [x], the larger one at a
    tie; computed on the exact value of [x]. *)
Definition Math_round (x : float) : float :=
  match Prim2SF x with
  | S754_finite s m e =>
      if (0 <=? e)%Z then x
      else
        let d := (2 ^ (- e))%Z in
        let num := if s then Z.neg m else Z.pos m in
        let n := ((2 * num + d) / (2 * d))%Z in
        if (n =? 0)%Z then (if s then neg_zero else zero)
        else SF2Prim (binary_normalize prec emax n 0 false)
  | _ => x
  end.

(** [Math.min] and [Math.max]: [NaN] if an argument is [NaN]; [-0] counts as
    smaller than [+0]. *)
Definition Math_min (x y : float) : float :=
  if is_nan x || is_nan y then nan
  else if x <? y then x
  else if y <? x then y
  else if get_sign x then x else y.

Definition Math_max (x y : float) : float :=
  if is_nan x || is_nan y then nan
  else if x <? y then y
  else if y <? x then x
  else if get_sign x then y else x.

(** ** Property lookup *)

(** What reading a property of a plain object of numbers gives: one of its
    numbers, a member inherited from [Object.prototype] (a function, or the
    prototype itself), or [undefined]. *)
Inductive Value : Type :=
| Num (x : float)
| Inherited
| Undefined.

(** The names every plain object inherits. *)
Definition Object_prototype_names : list string :=
  [ "constructor"; "__defineGetter__"; "__defineSetter__"; "hasOwnProperty";
    "__lookupGetter__"; "__lookupSetter__"; "isPrototypeOf";
    "propertyIsEnumerable"; "toString"; "valueOf"; "__proto__";
    "toLocaleString" ].

(** [obj[key]] *)
Definition getProperty (own : list (string * float)) (key : string) : Value :=
  match lookup key own with
  | Some x => Num x
  | None =>
      if existsb (String.eqb key) Object_prototype_names then Inherited
      else Undefined
  end.

(** [v || d]: an inherited member is an object, hence truthy. *)
Definition or_else (v : Value) (d : float) : Value :=
  match v with
  | Num x => if truthy x then Num x else Num d
  | Inherited => Inherited
  | Undefined => Num d
  end.

(** The operand of a multiplication as a number: a function or a plain
    object converts to [NaN]. *)
Definition toNumber (v : Value) : float :=
  match v with
  | Num x => x
  | Inherited => nan
  | Undefined => nan
  end.

(** ** The social score *)

(** The type [AnalyzedToken], its numbers as they are in memory. *)
Record AnalyzedToken : Type := mkAnalyzedToken {
  tokenName : string;
  ticker : option string;
  sentiment : string;
  sentimentScore : option float;
  trendingScore : option float;
  mentionCount : option float;
  avgEngagement : option float;
  confidence : option float;
  riskLevel : option string;
  recommendation : string;
  reasoning : string
}.

Definition riskPenaltyTable : list (string * float) :=
  [ ("low", 1); ("medium", 0.8); ("high", 0.5); ("extreme", 0.2) ].

Definition calculateSocialScore (tokenAnalysis : AnalyzedToken) : float :=
  let sentimentScore := JS.default (sentimentScore tokenAnalysis) 0 in
  let trendingScore := JS.default (trendingScore tokenAnalysis) 0 in
  let mentionCount := JS.default (mentionCount tokenAnalysis) 0 in
  let avgEngagement := JS.default (avgEngagement tokenAnalysis) 0 in
  let confidence := JS.default (confidence tokenAnalysis) 0 in
  let riskLevel := JS.default (riskLevel tokenAnalysis) "medium"%string in
  let riskPenalty := or_else (getProperty riskPenaltyTable riskLevel) 0.8 in
  let baseScore :=
    (trendingScore * 0.3) +
    ((sentimentScore + 1) * 50 * 0.25) +
    (Math_min mentionCount 100 * 0.2) +
    (Math_min (avgEngagement / 10) 100 * 0.15) +
    (confidence * 100 * 0.1) in
  Math_max 0 (Math_min 100 (Math_round (baseScore * toNumber riskPenalty))).

(** ** The formulas of the specification, evaluated on doubles *)

Module Spec.

Definition clamp (lo hi x : float) : float := Math_max lo (Math_min hi x).

Definition riskPenalty (label : string) : float :=
  if String.eqb label "low" then 1
  else if String.eqb label "medium" then 0.8
  else if String.eqb label "high" then 0.5
  else if String.eqb label "extreme" then 0.2
  else 0.8.

Definition socialScore
    (trendingScore sentimentScore mentionCount avgEngagement confidence : float)
    (label : string) : float :=
  clamp 0 100
    (Math_round
       (riskPenalty label *
        (trendingScore * 0.3 + (sentimentScore + 1) * 50 * 0.25 +
         Math_min mentionCount 100 * 0.2 +
         Math_min (avgEngagement / 10) 100 * 0.15 +
         confidence * 100 * 0.1))).

Definition fusion (onChainScore socialScore : float) : float :=
  Math_round (onChainScore * 0.6 + socialScore * 0.4).

End Spec.

(** ** Writing a social score *)

(** A number of an object as [JSON] keeps it: a missing one stays missing. *)
Definition storedNumber (x : option float) : option Q :=
  match x with
  | Some f => toJSON f
  | None => None
  end.

(** The object written back, as it is read again from the store. *)
Definition updatedData (tokenData : Token.t) (socialScore finalScore : float)
    (socialAnalysis : AnalyzedToken) (now : Z) : Token.t :=
  Token.mk (Token.address tokenData)
           (Token.name tokenData)
           (Token.symbol tokenData)
           (Token.trendingscore tokenData)
           (toJSON finalScore)
           (toJSON socialScore)
           (Some (SocialAnalysis.mk
                    (sentiment socialAnalysis)
                    (storedNumber (sentimentScore socialAnalysis))
                    (storedNumber (mentionCount socialAnalysis))
                    (riskLevel socialAnalysis)
                    (recommendation socialAnalysis)
                    (storedNumber (confidence socialAnalysis))
                    now))
           (Token.extra tokenData).

Definition updateTokenSocialScore
    (address : string) (socialScore : float) (socialAnalysis : AnalyzedToken)
    (now : Z) : Async unit :=
  try_catch
    (existingData <- client.get address ;;
     match existingData with
     | None => ret tt
     | Some tokenData =>
         let onChainScore :=
           or_number (option_map ofJSON (Token.trendingscore tokenData)) 0 in
         let finalScore :=
           Math_round ((onChainScore * 0.6) + (socialScore * 0.4)) in
         client.set address
           (updatedData tokenData socialScore finalScore socialAnalysis now) ;;;
         set_cachedRankings []
     end)
    (ret tt).

(** The on-chain score a write reads: the stored [trendingscore], 0 when it
    is missing or zero. *)
Definition onChainScoreOf (tokenData : Token.t) : float :=
  or_number (option_map ofJSON (Token.trendingscore tokenData)) 0.

(** ** The social refresh of a rank window *)

(** The placeholder analysis of a token without social data. *)
Definition noMentions (token : Ranked.t) : AnalyzedToken :=
  mkAnalyzedToken
    (or_string (Ranked.name token) (or_string (Ranked.symbol token) "Unknown"))
    None "neutral" (Some 0) (Some 0) (Some 0) (Some 0) (Some 0)
    (Some "medium"%string) "hold" "No recent social media mentions".

Section Refresh.

(** [String.prototype.toLowerCase], the Unicode lower-casing of the
    platform. *)
Variable toLowerCase : string -> string.

(** The social collaborators, as in the exact embedding. *)
Variable analyzeTrends : list string -> option (list AnalyzedToken).

Definition analysisMap (topTrending : list AnalyzedToken)
  : list (string * AnalyzedToken) :=
  fold_left
    (fun m token =>
       (toLowerCase (JS.or_str (ticker token) (tokenName token)), token) :: m)
    topTrending [].

Definition fetchAnalysis (tickers : list string) : Async (list AnalyzedToken) :=
  match analyzeTrends tickers with
  | Some a => ret a
  | None => throw
  end.

Definition refreshToken (m : list (string * AnalyzedToken)) (now : Z)
    (token : Ranked.t) : Async unit :=
  let tokenKey :=
    toLowerCase
      (or_string (Ranked.symbol token) (or_string (Ranked.name token) EmptyString)) in
  let socialAnalysis := lookup tokenKey m in
  let finalAnalysis :=
    match socialAnalysis with
    | Some a => a
    | None => noMentions token
    end in
  let socialScore :=
    match socialAnalysis with
    | Some a => calculateSocialScore a
    | None => 30
    end in
  updateTokenSocialScore (Ranked.address token) socialScore finalAnalysis now.

(** The rank bounds are numbers, as at the call sites of the scheduler; the
    two [console.log] calls only format them. *)
Definition updateTokensByRankRange (startRank : nat) (endRank : Bound) (now : Z)
  : Async unit :=
  try_catch
    (sortedTokens <- getTokenAddressesSorted now ;;
     let tokensToUpdate := slice startRank endRank sortedTokens in
     if negb (nonempty tokensToUpdate) then ret tt
     else
       let tokenTickers :=
         filter nonblank
           (map (fun t => or_string (Ranked.symbol t)
                            (or_string (Ranked.name t) EmptyString))
                tokensToUpdate) in
       if negb (nonempty tokenTickers) then ret tt
       else
         topTrending <- fetchAnalysis tokenTickers ;;
         forEach (refreshToken (analysisMap topTrending) now) tokensToUpdate)
    (ret tt).

(** What the cycle settles for a token, given the map of analyses. *)
Definition finalAnalysisOf (m : list (string * AnalyzedToken)) (t : Ranked.t)
  : AnalyzedToken :=
  match lookup (toLowerCase (tickerOf t)) m with
  | Some a => a
  | None => noMentions t
  end.

Definition socialScoreOf (m : list (string * AnalyzedToken)) (t : Ranked.t)
  : float :=
  match lookup (toLowerCase (tickerOf t)) m with
  | Some a => calculateSocialScore a
  | None => 30
  end.

(** The value the cycle writes over the record [r] for the token [t]. *)
Definition written (m : list (string * AnalyzedToken)) (now : Z)
    (t : Ranked.t) (r : Token.t) : Token.t :=
  updatedData r (socialScoreOf m t)
    (Spec.fusion (onChainScoreOf r) (socialScoreOf m t))
    (finalAnalysisOf m t) now.

End Refresh.

(** The record a token without social data is left with: score and analysis
    of [noMentions]. *)
Definition neutralAnalysis (now : Z) : SocialAnalysis.t :=
  SocialAnalysis.mk "neutral" (Some 0%Q) (Some 0%Q) (Some "medium"%string)
    "hold" (Some 0%Q) now.

(** ** Sample data *)

Module Sample.

Definition bullish : AnalyzedToken :=
  mkAnalyzedToken "Pepe" (Some "PEPE"%string) "bullish" (Some 0.6) (Some 80)
    (Some 250) (Some 420) (Some 0.9) (Some "high"%string) "buy"
    "Strong momentum".

(** The same signals under a label that names an inherited member. *)
Definition inheritedLabel : AnalyzedToken :=
  mkAnalyzedToken "Pepe" (Some "PEPE"%string) "bullish" (Some 0.6) (Some 80)
    (Some 250) (Some 420) (Some 0.9) (Some "constructor"%string) "buy"
    "Strong momentum".

(** Trending score 36 and one mention, low risk. *)
Definition halfway : AnalyzedToken :=
  mkAnalyzedToken "Pepe" (Some "PEPE"%string) "neutral" (Some 0) (Some 36)
    (Some 1) (Some 0) (Some 0) (Some "low"%string) "hold" "n/a".

(** A record with on-chain score 28.5. *)
Definition shiba : Token.t :=
  Token.mk "0xB" (Some "Shiba"%string) (Some "SHIB"%string) (Some (57 # 2))
    (Some (57 # 2)) None None [].

Definition oneShiba : World := mkWorld [("0xB"%string, shiba)] true [] [] 0.

(** [pepe] in the store, and a snapshot built 100 ms before time 1000 that
    lists another token. *)
Definition freshlyCached : World :=
  mkWorld [("0xA"%string, Sample.pepe)] true [] [toRanked Sample.tokC] 900.

(** [pepe] after a social refresh at time 940000 that gave it score 90. *)
Definition fusedPepe : Token.t := updatedData Sample.pepe 90 76 bullish 940000.

Definition recentlyRefreshed : World :=
  mkWorld [("0xA"%string, fusedPepe)] true [] [] 0.

(** The social collaborators find nothing for any ticker. *)
Definition noResults (tickers : list string) : option (list AnalyzedToken) :=
  Some [].

(** A later, calmer analysis of the same ticker, and one of another token. *)
Definition calm : AnalyzedToken :=
  mkAnalyzedToken "Pepe" (Some "pepe"%string) "neutral" (Some 0.1) (Some 40)
    (Some 30) (Some 120) (Some 0.7) (Some "low"%string) "hold" "Cooling off".

Definition doge : AnalyzedToken :=
  mkAnalyzedToken "Dogecoin" (Some "DOGE"%string) "bullish" (Some 0.4) (Some 70)
    (Some 90) (Some 300) (Some 0.8) (Some "medium"%string) "buy" "Steady".

End Sample.

End IEEE.

(** * Properties *)

(** ** Social score *)


Example calculateSocialScore_sample :
  calculateSocialScore
    (mkAnalyzedToken "Pepe" (Some "PEPE") "bullish" (Some 0.6) (Some 80)
       (Some 250) (Some 420) (Some 0.9) (Some "high") "buy" "Strong momentum") = 40%Z.
Proof. reflexivity. Qed.

Example calculateSocialScore_defaults :
  calculateSocialScore
    (mkAnalyzedToken "Pepe" None "neutral" None None None None None None "hold" "n/a")
  = 10%Z.
Proof. reflexivity. Qed.

Example calculateSocialScore_unrecognized_label :
  calculateSocialScore
    (mkAnalyzedToken "Pepe" (Some "PEPE") "bullish" (Some 0.6) (Some 80)
       (Some 250) (Some 420) (Some 0.9) (Some "moderate") "buy" "n/a") = 63%Z.
Proof. reflexivity. Qed.

(** ** The keyspace *)

Lemma lookup_upsert_same {V} (k : string) (v : V) (l : list (string * V)) :
  lookup k (upsert k v l) = Some v.
Proof.
  induction l as [|[k' v'] l IH]; cbn.
  - now rewrite String.eqb_refl.
  - destruct (String.eqb k k') eqn:E; cbn.
    + now rewrite String.eqb_refl.
    + now rewrite E.
Qed.

Lemma lookup_upsert_other {V} (k k' : string) (v : V) (l : list (string * V)) :
  k' <> k -> lookup k' (upsert k v l) = lookup k' l.
Proof.
  intros Hne.
  induction l as [|[k0 v0] l IH]; cbn.
  - apply String.eqb_neq in Hne. now rewrite Hne.
  - destruct (String.eqb k k0) eqn:E; cbn.
    + apply String.eqb_eq in E; subst k0.
      apply String.eqb_neq in Hne. now rewrite Hne.
    + now rewrite IH.
Qed.

(** ** Writing a social score: the three outcomes *)

Lemma update_present (address : string) (s : Q) (a : AnalyzedToken) (now : Z)
    (w : World) (tokenData : Token.t) :
  up w = true ->
  lookup address (db w) = Some tokenData ->
  updateTokenSocialScore address s a now w =
    (Ok tt,
     let v := updatedData tokenData s (fused tokenData s) a now in
     mkWorld (upsert address v (db w)) (up w) (sets w ++ [(address, v)])%list []
       (lastRankingUpdate w)).
Proof.
  destruct w as [d u st c l]; cbn [db up sets cachedRankings lastRankingUpdate].
  intros -> Hget.
  unfold updateTokenSocialScore, try_catch, bind, client.get; cbn [db up].
  rewrite Hget. reflexivity.
Qed.

Lemma update_absent (address : string) (s : Q) (a : AnalyzedToken) (now : Z)
    (w : World) :
  lookup address (db w) = None ->
  updateTokenSocialScore address s a now w = (Ok tt, w).
Proof.
  intros Hget.
  unfold updateTokenSocialScore, try_catch, bind, client.get.
  destruct (up w); [rewrite Hget|]; reflexivity.
Qed.

Lemma update_down (address : string) (s : Q) (a : AnalyzedToken) (now : Z)
    (w : World) :
  up w = false ->
  updateTokenSocialScore address s a now w = (Ok tt, w).
Proof.
  intros Hup.
  unfold updateTokenSocialScore, try_catch, bind, client.get.
  now rewrite Hup.
Qed.

(** ** Reading the ranking: the outcomes of [getTokenAddressesSorted] *)

Lemma ranked_read_hit (now : Z) (w : World) :
  cacheFresh now w = true ->
  getTokenAddressesSorted now w = (Ok (cachedRankings w), w).
Proof.
  unfold cacheFresh, getTokenAddressesSorted, try_catch, bind, read.
  intros ->. reflexivity.
Qed.

Lemma ranked_read_miss (now : Z) (w : World) :
  cacheFresh now w = false ->
  up w = true ->
  getTokenAddressesSorted now w =
    (Ok (rebuild (db w)),
     if nonempty (tokenKeys (db w)) then
       mkWorld (db w) (up w) (sets w) (rebuild (db w)) now
     else w).
Proof.
  destruct w as [d u st c l].
  unfold cacheFresh, getTokenAddressesSorted, try_catch, bind, read.
  cbn [db up sets cachedRankings lastRankingUpdate].
  intros -> ->.
  unfold client.keys; cbn [db up].
  fold (tokenKeys d).
  unfold rebuild, records, client.mGet; cbn [up db].
  destruct (tokenKeys d); reflexivity.
Qed.

Lemma ranked_read_down (now : Z) (w : World) :
  cacheFresh now w = false ->
  up w = false ->
  getTokenAddressesSorted now w = (Ok [], w).
Proof.
  unfold cacheFresh, getTokenAddressesSorted, try_catch, bind, read.
  intros -> Hup.
  unfold client.keys. now rewrite Hup.
Qed.

Lemma cacheFresh_true (now : Z) (w : World) :
  cachedRankings w <> [] ->
  (now - lastRankingUpdate w < 2 * 60 * 1000)%Z ->
  cacheFresh now w = true.
Proof.
  intros Hc Hage. unfold cacheFresh, RANKING_CACHE_TTL.
  destruct (cachedRankings w); [contradiction|].
  cbn. now apply Z.ltb_lt.
Qed.

Lemma cacheFresh_false (now : Z) (w : World) :
  cachedRankings w = [] \/ (2 * 60 * 1000 <= now - lastRankingUpdate w)%Z ->
  cacheFresh now w = false.
Proof.
  intros [Hc|Hage]; unfold cacheFresh, RANKING_CACHE_TTL.
  - now rewrite Hc.
  - apply andb_false_iff; right. now apply Z.ltb_ge.
Qed.

(** ** Update of an unknown address *)

(** C9. A social-score update for an address without a record returns
    normally and leaves the whole process state as it was: no SET is issued,
    no record appears, and the cached ranking is kept. *)
Theorem update_unknown_address_noop
    (address : string) (s : Q) (a : AnalyzedToken) (now : Z) (w : World) :
  lookup address (db w) = None ->
  updateTokenSocialScore address s a now w = (Ok tt, w).
Proof.
  exact (update_absent address s a now w).
Qed.

Lemma update_unknown_address_noop_witness :
  lookup "0xZ" (db Sample.staleSnapshot) = None /\
  updateTokenSocialScore "0xZ" 90 Sample.bullish 1000 Sample.staleSnapshot
    = (Ok tt, Sample.staleSnapshot).
Proof.
  split; [reflexivity|].
  apply (update_unknown_address_noop "0xZ" 90 Sample.bullish 1000
           Sample.staleSnapshot); reflexivity.
Defined.

(** ** The sort *)

Lemma desc_trans : Relations_1.Transitive desc.
Proof.
  intros a b c Hab Hbc. unfold desc in *. eapply Qle_trans; eassumption.
Qed.

Lemma insert_perm (x : Ranked.t) (l : list Ranked.t) :
  Permutation (insert x l) (x :: l).
Proof.
  induction l as [|y l IH]; cbn; [reflexivity|].
  destruct (Qcompare _ _); try reflexivity.
  rewrite IH. apply perm_swap.
Qed.

Lemma sort_perm (l : list Ranked.t) : Permutation (sort l) l.
Proof.
  induction l as [|x l IH]; cbn; [constructor|].
  rewrite insert_perm. now constructor.
Qed.

Lemma insert_hd (y x : Ranked.t) (l : list Ranked.t) :
  desc y x -> HdRel desc y l -> HdRel desc y (insert x l).
Proof.
  intros Hyx Hl.
  destruct l as [|z l]; cbn; [now constructor|].
  destruct (Qcompare _ _); constructor; trivial.
  now inversion Hl.
Qed.

Lemma insert_sorted (x : Ranked.t) (l : list Ranked.t) :
  Sorted desc l -> Sorted desc (insert x l).
Proof.
  induction l as [|y l IH]; intros Hs; cbn.
  - repeat constructor.
  - inversion Hs as [|? ? Hl Hhd]; subst.
    destruct (Qcompare_spec (Ranked.finalScore x) (Ranked.finalScore y))
      as [Heq|Hlt|Hgt].
    + constructor; [assumption|]. constructor. unfold desc.
      rewrite Heq. apply Qle_refl.
    + constructor; [now apply IH|].
      apply insert_hd; [|assumption]. unfold desc. now apply Qlt_le_weak.
    + constructor; [assumption|]. constructor. unfold desc.
      now apply Qlt_le_weak.
Qed.

Lemma sort_sorted (l : list Ranked.t) : StronglySorted desc (sort l).
Proof.
  apply Sorted_StronglySorted; [exact desc_trans|].
  induction l as [|x l IH]; cbn; [constructor|].
  now apply insert_sorted.
Qed.

(** Stability: entries of equal score keep the order they had. *)
Lemma insert_withScore (k : Q) (x : Ranked.t) (l : list Ranked.t) :
  withScore k (insert x l) = withScore k (x :: l).
Proof.
  unfold withScore.
  induction l as [|y l IH]; cbn; [reflexivity|].
  destruct (Qcompare_spec (Ranked.finalScore x) (Ranked.finalScore y))
    as [Heq|Hlt|Hgt]; try reflexivity.
  cbn. rewrite IH. cbn.
  destruct (Qeq_bool (Ranked.finalScore y) k) eqn:Ey;
    destruct (Qeq_bool (Ranked.finalScore x) k) eqn:Ex; try reflexivity.
  apply Qeq_bool_iff in Ey, Ex.
  exfalso. rewrite Ex, Ey in Hlt. exact (Qlt_irrefl _ Hlt).
Qed.

Lemma sort_stable (k : Q) (l : list Ranked.t) :
  withScore k (sort l) = withScore k l.
Proof.
  induction l as [|x l IH]; [reflexivity|].
  change (sort (x :: l)) with (insert x (sort l)).
  rewrite insert_withScore. unfold withScore in *. cbn [filter].
  now rewrite IH.
Qed.

(** ** The ranked order *)

Lemma toRanked_key (v : Token.t) :
  Ranked.finalScore (toRanked v) = Spec.rankingKey v.
Proof.
  unfold toRanked, Spec.rankingKey, JS.or_num, JS.or_opt, JS.truthy.
  cbn [Ranked.finalScore].
  destruct (Token.finalScore v) as [f|]; cbn.
  - destruct (Qeq_bool f 0) eqn:Ef; cbn; [|now rewrite Ef].
    destruct (Token.trendingscore v); reflexivity.
  - destruct (Token.trendingscore v); reflexivity.
Qed.

Example storeCAB_order :
  fst (getTokenAddressesSorted 1000 Sample.storeCAB)
  = Ok [toRanked Sample.tokA; toRanked Sample.tokB; toRanked Sample.tokC].
Proof. reflexivity. Qed.

(** C4, as stated, fails: the three records of scenario 3, enumerated by the
    store as C, B, A, are ranked B, A, C, which puts the tied pair in
    descending address order. *)
Lemma ranked_order_ties_by_address_fails :
  fst (getTokenAddressesSorted 1000 Sample.storeCBA)
    = Ok [toRanked Sample.tokB; toRanked Sample.tokA; toRanked Sample.tokC] /\
  map Ranked.address
      [toRanked Sample.tokB; toRanked Sample.tokA; toRanked Sample.tokC]
    = ["0xB"; "0xA"; "0xC"] /\
  ~ StronglySorted byScoreThenAddress
      [toRanked Sample.tokB; toRanked Sample.tokA; toRanked Sample.tokC].
Proof.
  split; [reflexivity|]. split; [reflexivity|].
  intros Hs. inversion Hs as [|? ? _ Hall]; subst.
  inversion Hall as [|? ? [Hlt|[_ Hleb]] _]; subst.
  - vm_compute in Hlt. discriminate.
  - vm_compute in Hleb. discriminate.
Qed.

(** C4, amended. A rebuild on a reachable store returns the ranking entries
    of the stored records sorted by descending score, entries of equal score
    staying in the order in which the store enumerates them, and any rebuild
    from a store with the same contents returns the same order. *)
Theorem ranked_order_sorted_stable (now : Z) (w : World) :
  up w = true ->
  cachedRankings w = [] \/ (2 * 60 * 1000 <= now - lastRankingUpdate w)%Z ->
  exists order,
    fst (getTokenAddressesSorted now w) = Ok order /\
    Permutation order (map toRanked (records (db w))) /\
    StronglySorted desc order /\
    (forall k, withScore k order = withScore k (map toRanked (records (db w)))) /\
    (forall now2 w2,
        up w2 = true ->
        cachedRankings w2 = [] \/ (2 * 60 * 1000 <= now2 - lastRankingUpdate w2)%Z ->
        db w2 = db w ->
        fst (getTokenAddressesSorted now2 w2) = Ok order).
Proof.
  intros Hup Hmiss.
  exists (rebuild (db w)).
  split; [|split; [|split; [|split]]].
  - rewrite ranked_read_miss; auto using cacheFresh_false.
  - apply sort_perm.
  - apply sort_sorted.
  - intros k. apply sort_stable.
  - intros now2 w2 Hup2 Hmiss2 Hdb.
    rewrite ranked_read_miss; auto using cacheFresh_false.
    cbn [fst]. now rewrite Hdb.
Qed.

Lemma ranked_order_sorted_stable_witness :
  up Sample.storeCBA = true /\
  (cachedRankings Sample.storeCBA = [] \/
   (2 * 60 * 1000 <= 1000 - lastRankingUpdate Sample.storeCBA)%Z) /\
  exists order,
    fst (getTokenAddressesSorted 1000 Sample.storeCBA) = Ok order /\
    Permutation order (map toRanked (records (db Sample.storeCBA))) /\
    StronglySorted desc order /\
    (forall k, withScore k order
               = withScore k (map toRanked (records (db Sample.storeCBA)))) /\
    (forall now2 w2,
        up w2 = true ->
        cachedRankings w2 = [] \/ (2 * 60 * 1000 <= now2 - lastRankingUpdate w2)%Z ->
        db w2 = db Sample.storeCBA ->
        fst (getTokenAddressesSorted now2 w2) = Ok order).
Proof.
  split; [reflexivity|]. split; [left; reflexivity|].
  apply (ranked_order_sorted_stable 1000 Sample.storeCBA);
    [reflexivity | left; reflexivity].
Defined.

Lemma sorted_by_key (recs : list Token.t) :
  StronglySorted desc (map toRanked recs) ->
  StronglySorted (fun a b => Spec.rankingKey b <= Spec.rankingKey a) recs.
Proof.
  induction recs as [|r recs IH]; intros Hs; [constructor|].
  cbn [map] in Hs. inversion Hs as [|? ? Hrest Hall]; subst.
  constructor; [now apply IH|].
  apply (proj1 (Forall_map _ _ _)) in Hall.
  eapply Forall_impl; [|exact Hall].
  intros b Hb. unfold desc in Hb. now rewrite !toRanked_key in Hb.
Qed.

(** C10. A rebuilt order lists the stored records, each once, by descending
    ranking key, the key of a record being its stored finalScore when present
    and non-zero, otherwise its stored trendingscore when present and
    non-zero, otherwise 0; the score shown in a ranking entry is that key. *)
Theorem ranking_key_fallback (now : Z) (w : World) :
  up w = true ->
  cachedRankings w = [] \/ (2 * 60 * 1000 <= now - lastRankingUpdate w)%Z ->
  exists recs,
    Permutation (records (db w)) recs /\
    fst (getTokenAddressesSorted now w) = Ok (map toRanked recs) /\
    StronglySorted (fun a b => Spec.rankingKey b <= Spec.rankingKey a) recs /\
    (forall v : Token.t, Ranked.finalScore (toRanked v) = Spec.rankingKey v).
Proof.
  intros Hup Hmiss.
  destruct (@Permutation_map_inv _ _ toRanked (rebuild (db w)) (records (db w)))
    as (recs & Hmap & Hperm); [apply sort_perm|].
  exists recs. split; [exact Hperm|]. split; [|split].
  - rewrite ranked_read_miss; auto using cacheFresh_false.
    cbn [fst]. now rewrite Hmap.
  - apply sorted_by_key. rewrite <- Hmap. apply sort_sorted.
  - exact toRanked_key.
Qed.

Lemma ranking_key_fallback_witness :
  up RankingSample.store = true /\
  (cachedRankings RankingSample.store = [] \/
   (2 * 60 * 1000 <= 1000 - lastRankingUpdate RankingSample.store)%Z) /\
  exists recs,
    Permutation (records (db RankingSample.store)) recs /\
    fst (getTokenAddressesSorted 1000 RankingSample.store)
      = Ok (map toRanked recs) /\
    StronglySorted (fun a b => Spec.rankingKey b <= Spec.rankingKey a) recs /\
    (forall v : Token.t, Ranked.finalScore (toRanked v) = Spec.rankingKey v).
Proof.
  split; [reflexivity|]. split; [left; reflexivity|].
  apply (ranking_key_fallback 1000 RankingSample.store);
    [reflexivity | left; reflexivity].
Defined.

(** A record not yet fused is ranked by its on-chain score 40, one fused to
    0 by its on-chain score 70, one fused to 55 by 55, one without scores by
    0. *)
Example ranking_key_sample :
  map Spec.rankingKey
    [RankingSample.onlyOnChain; RankingSample.zeroFinal; RankingSample.bare;
     RankingSample.fusedRecord] = [40; 70; 0; 55] /\
  fst (getTokenAddressesSorted 1000 RankingSample.store)
  = Ok (map toRanked
          [RankingSample.zeroFinal; RankingSample.fusedRecord;
           RankingSample.onlyOnChain; RankingSample.bare]).
Proof. split; reflexivity. Qed.

(** ** The freshness window *)

(** C5, as stated, fails: a snapshot exactly two minutes old, hence not older
    than the window, is not served but rebuilt; and a rebuild that finds the
    store without keys returns the empty order while the old snapshot stays
    in the cache. *)
Lemma ranked_read_window_edge_fails :
  (cachedRankings Sample.staleSnapshot = [toRanked Sample.tokC] /\
   (120000 - lastRankingUpdate Sample.staleSnapshot <= 2 * 60 * 1000)%Z /\
   fst (getTokenAddressesSorted 120000 Sample.staleSnapshot)
     = Ok [toRanked Sample.tokA] /\
   [toRanked Sample.tokA] <> cachedRankings Sample.staleSnapshot)
  /\
  ((2 * 60 * 1000 < 120001 - lastRankingUpdate Sample.emptiedStore)%Z /\
   getTokenAddressesSorted 120001 Sample.emptiedStore
     = (Ok [], Sample.emptiedStore) /\
   cachedRankings Sample.emptiedStore = [toRanked Sample.tokC]).
Proof.
  repeat split; try reflexivity.
  discriminate.
Qed.

(** C5, amended. A ranked read returns the cached snapshot, and changes
    nothing, when one exists and is younger than two minutes; when none
    exists or it is two minutes old or older, the read on a reachable store
    returns the order rebuilt from every stored record and, if the store
    holds at least one key, caches that order with the time of the read. *)
Theorem ranked_read_cache_policy (now : Z) (w : World) :
  (cachedRankings w <> [] ->
   (now - lastRankingUpdate w < 2 * 60 * 1000)%Z ->
   getTokenAddressesSorted now w = (Ok (cachedRankings w), w))
  /\
  (cachedRankings w = [] \/ (2 * 60 * 1000 <= now - lastRankingUpdate w)%Z ->
   up w = true ->
   let w' := snd (getTokenAddressesSorted now w) in
   fst (getTokenAddressesSorted now w) = Ok (rebuild (db w)) /\
   db w' = db w /\
   (tokenKeys (db w) <> [] ->
    cachedRankings w' = rebuild (db w) /\ lastRankingUpdate w' = now)).
Proof.
  split.
  - intros Hc Hage. apply ranked_read_hit. now apply cacheFresh_true.
  - intros Hmiss Hup w'. subst w'.
    rewrite ranked_read_miss; auto using cacheFresh_false.
    cbn [fst snd].
    destruct (tokenKeys (db w)) eqn:Hk; cbn [nonempty].
    + split; [reflexivity|]. split; [reflexivity|].
      intros Hne. now contradiction Hne.
    + split; [reflexivity|]. split; [reflexivity|].
      intros _. split; reflexivity.
Qed.

Lemma ranked_read_cache_policy_witness :
  (cachedRankings Sample.staleSnapshot <> [] /\
   (119999 - lastRankingUpdate Sample.staleSnapshot < 2 * 60 * 1000)%Z /\
   getTokenAddressesSorted 119999 Sample.staleSnapshot
     = (Ok (cachedRankings Sample.staleSnapshot), Sample.staleSnapshot))
  /\
  ((cachedRankings Sample.staleSnapshot = [] \/
    (2 * 60 * 1000 <= 120000 - lastRankingUpdate Sample.staleSnapshot)%Z) /\
   up Sample.staleSnapshot = true /\
   let w' := snd (getTokenAddressesSorted 120000 Sample.staleSnapshot) in
   fst (getTokenAddressesSorted 120000 Sample.staleSnapshot)
     = Ok (rebuild (db Sample.staleSnapshot)) /\
   db w' = db Sample.staleSnapshot /\
   (tokenKeys (db Sample.staleSnapshot) <> [] ->
    cachedRankings w' = rebuild (db Sample.staleSnapshot) /\
    lastRankingUpdate w' = 120000%Z)).
Proof.
  split.
  - split; [discriminate|]. split; [reflexivity|].
    apply (proj1 (ranked_read_cache_policy 119999 Sample.staleSnapshot));
      [discriminate | reflexivity].
  - split; [right; discriminate|]. split; [reflexivity|].
    apply (proj2 (ranked_read_cache_policy 120000 Sample.staleSnapshot));
      [right; discriminate | reflexivity].
Defined.

(** ** Unreachable store *)

(** C6, as stated, fails: with the store unreachable and a snapshot in the
    cache past its window, the ranked read returns the empty order, not the
    snapshot; and with the store unreachable and no snapshot, the top-tokens
    route answers with its error status. *)
Lemma unreachable_store_fallback_fails :
  (cachedRankings Sample.downWithSnapshot = [toRanked Sample.tokC] /\
   fst (getTokenAddressesSorted 120000 Sample.downWithSnapshot) = Ok [])
  /\
  (cachedRankings Sample.downNoSnapshot = [] /\
   fst (top_tokens 50 1000 Sample.downNoSnapshot) = Status500).
Proof.
  repeat split.
Qed.

(** C6, amended. When the store is unreachable and the ranked read has to
    rebuild, it returns the empty order without raising, whether or not a
    snapshot is cached, and leaves the process state as it was; the
    top-tokens route then answers with its error status. *)
Theorem unreachable_store_degrades (now : Z) (w : World) :
  up w = false ->
  cachedRankings w = [] \/ (2 * 60 * 1000 <= now - lastRankingUpdate w)%Z ->
  getTokenAddressesSorted now w = (Ok [], w) /\
  forall limit, top_tokens limit now w = (Status500, w).
Proof.
  intros Hup Hmiss.
  assert (Hread : getTokenAddressesSorted now w = (Ok [], w))
    by (apply ranked_read_down; auto using cacheFresh_false).
  split; [exact Hread|].
  intros limit. unfold top_tokens, bind. rewrite Hread.
  unfold client.mGet. now rewrite Hup.
Qed.

Lemma unreachable_store_degrades_witness :
  up Sample.downWithSnapshot = false /\
  (cachedRankings Sample.downWithSnapshot = [] \/
   (2 * 60 * 1000 <= 120000 - lastRankingUpdate Sample.downWithSnapshot)%Z) /\
  getTokenAddressesSorted 120000 Sample.downWithSnapshot
    = (Ok [], Sample.downWithSnapshot) /\
  forall limit,
    top_tokens limit 120000 Sample.downWithSnapshot
      = (Status500, Sample.downWithSnapshot).
Proof.
  split; [reflexivity|]. split; [right; discriminate|].
  apply (unreachable_store_degrades 120000 Sample.downWithSnapshot);
    [reflexivity | right; discriminate].
Defined.

(** ** The refresh cycle *)

Lemma ranked_read_frame (now : Z) (w : World) :
  exists order,
    fst (getTokenAddressesSorted now w) = Ok order /\
    db (snd (getTokenAddressesSorted now w)) = db w /\
    up (snd (getTokenAddressesSorted now w)) = up w /\
    sets (snd (getTokenAddressesSorted now w)) = sets w.
Proof.
  destruct (cacheFresh now w) eqn:Hf.
  - rewrite (ranked_read_hit _ _ Hf). eexists; repeat split.
  - destruct (up w) eqn:Hup.
    + rewrite (ranked_read_miss _ _ Hf Hup). eexists; split; [reflexivity|].
      cbn [snd]. destruct (nonempty _); cbn; auto.
    + rewrite (ranked_read_down _ _ Hf Hup). eexists; repeat split; auto.
Qed.

Lemma has_upsert (k a : string) (v : Token.t) (d : list (string * Token.t)) :
  has k d = true -> has a (upsert k v d) = has a d.
Proof.
  unfold has. intros Hk.
  destruct (String.eqb_spec a k) as [->|Hne].
  - rewrite lookup_upsert_same. exact (eq_sym Hk).
  - now rewrite lookup_upsert_other.
Qed.

(** One body of the loop: a record under the address of the token is
    overwritten; without a record nothing happens. *)
Lemma refreshToken_step (m : list (string * AnalyzedToken)) (now : Z)
    (t : Ranked.t) (w : World) :
  up w = true ->
  refreshToken m now t w =
    (Ok tt,
     match lookup (Ranked.address t) (db w) with
     | Some r =>
         mkWorld (upsert (Ranked.address t) (written m now t r) (db w)) (up w)
           (sets w ++ [(Ranked.address t, written m now t r)])%list []
           (lastRankingUpdate w)
     | None => w
     end).
Proof.
  intros Hup.
  change (refreshToken m now t) with
    (updateTokenSocialScore (Ranked.address t) (socialScoreOf m t)
       (finalAnalysisOf m t) now).
  destruct (lookup (Ranked.address t) (db w)) as [r|] eqn:Hget.
  - now rewrite (update_present _ _ _ _ _ _ Hup Hget).
  - now rewrite (update_absent _ _ _ _ _ Hget).
Qed.

Lemma written_refreshedAt (m : list (string * AnalyzedToken)) (now : Z)
    (t : Ranked.t) (r : Token.t) :
  refreshedAt now (written m now t r).
Proof. eexists; split; reflexivity. Qed.

(** The loop over a window.  Every address of the window that has a record
    ends with the value written for one of the window's tokens of that
    address, computed from a record with the on-chain score it had at the
    start; other addresses are untouched; one SET is issued per window entry
    with a record, in rank order. *)
Lemma forEach_refresh (m : list (string * AnalyzedToken)) (now : Z)
    (ts : list Ranked.t) :
  forall w, up w = true ->
  exists w',
    forEach (refreshToken m now) ts w = (Ok tt, w') /\
    up w' = true /\
    (forall a, has a (db w') = has a (db w)) /\
    (forall a, ~ In a (map Ranked.address ts) ->
               lookup a (db w') = lookup a (db w)) /\
    (forall a r, In a (map Ranked.address ts) -> lookup a (db w) = Some r ->
       exists t r0,
         In t ts /\ Ranked.address t = a /\
         Token.trendingscore r0 = Token.trendingscore r /\
         lookup a (db w') = Some (written m now t r0)) /\
    (exists new,
        sets w' = (sets w ++ new)%list /\
        map fst new = filter (fun a => has a (db w)) (map Ranked.address ts)).
Proof.
  induction ts as [|t ts IH]; intros w Hup.
  - exists w. cbn. repeat split; auto.
    + intros a r [].
    + exists []. now rewrite app_nil_r.
  - pose proof (refreshToken_step m now t w Hup) as Hstep.
    destruct (lookup (Ranked.address t) (db w)) as [rt|] eqn:Hget.
    + set (v := written m now t rt) in *.
      set (w1 := mkWorld _ _ _ _ _) in Hstep.
      assert (Hup1 : up w1 = true) by exact Hup.
      destruct (IH w1 Hup1)
        as (w' & Hrest & Hup' & Hhas & Hframe & Hfresh & new & Hsets & Hnew).
      exists w'. cbn [forEach]. unfold bind. rewrite Hstep.
      split; [exact Hrest|]. split; [exact Hup'|].
      assert (Hk : has (Ranked.address t) (db w) = true)
        by (unfold has; now rewrite Hget).
      assert (Hhas1 : forall a, has a (db w1) = has a (db w))
        by (intros a; now apply has_upsert).
      split; [intros a; now rewrite Hhas, Hhas1|].
      split; [|split].
      * intros a Hnin. cbn in Hnin.
        rewrite Hframe by tauto.
        apply lookup_upsert_other. intros ->. tauto.
      * intros a r Hin Ha.
        destruct (in_dec string_dec a (map Ranked.address ts)) as [Hts|Hts].
        -- destruct (String.eqb_spec a (Ranked.address t)) as [->|Hne].
           ++ destruct (Hfresh (Ranked.address t) v Hts
                          (lookup_upsert_same _ _ _))
                as (t' & r0 & Hin' & Haddr & Hon & Hfin).
              exists t', r0. repeat split; auto.
              ** now right.
              ** rewrite Hon. rewrite Hget in Ha. inversion Ha; subst r. reflexivity.
           ++ assert (Ha1 : lookup a (db w1) = Some r)
                by (cbn [w1 db]; now rewrite lookup_upsert_other).
              destruct (Hfresh a r Hts Ha1)
                as (t' & r0 & Hin' & Haddr & Hon & Hfin).
              exists t', r0. repeat split; auto. now right.
        -- destruct Hin as [<-|Hin]; [|contradiction].
           exists t, rt. rewrite Hget in Ha. inversion Ha; subst r.
           repeat split; [now left|].
           rewrite Hframe by exact Hts.
           apply lookup_upsert_same.
      * exists ((Ranked.address t, v) :: new). split.
        -- rewrite Hsets. cbn [w1 sets]. now rewrite <- app_assoc.
        -- cbn [map fst filter]. rewrite Hk. f_equal.
           rewrite Hnew. apply filter_ext. exact Hhas1.
    + destruct (IH w Hup)
        as (w' & Hrest & Hup' & Hhas & Hframe & Hfresh & new & Hsets & Hnew).
      exists w'. cbn [forEach]. unfold bind. rewrite Hstep.
      split; [exact Hrest|]. split; [exact Hup'|].
      split; [exact Hhas|]. split; [|split].
      * intros a Hnin. cbn in Hnin. apply Hframe. tauto.
      * intros a r Hin Ha.
        destruct Hin as [<-|Hin]; [rewrite Hget in Ha; discriminate|].
        destruct (Hfresh a r Hin Ha) as (t' & r0 & Hin' & Haddr & Hon & Hfin).
        exists t', r0. repeat split; auto. now right.
      * exists new. split; [exact Hsets|].
        cbn [map filter]. unfold has at 1. rewrite Hget. exact Hnew.
Qed.

(** A cycle whose window yields a ticker and whose collaborators answer is
    the ranked read followed by the loop over the window. *)
Lemma cycle_runs (analyzeTrends : list string -> option (list AnalyzedToken))
    (startRank : nat) (endRank : Bound) (now : Z) (w : World)
    (order : list Ranked.t) (topTrending : list AnalyzedToken) :
  up w = true ->
  fst (getTokenAddressesSorted now w) = Ok order ->
  tickersOf (slice startRank endRank order) <> [] ->
  analyzeTrends (tickersOf (slice startRank endRank order)) = Some topTrending ->
  exists w0,
    up w0 = true /\ db w0 = db w /\ sets w0 = sets w /\
    updateTokensByRankRange analyzeTrends startRank endRank now w =
      forEach (refreshToken (analysisMap topTrending) now)
        (slice startRank endRank order) w0.
Proof.
  intros Hup Hread Htick Hfetch.
  destruct (ranked_read_frame now w) as (order' & Hfst & Hdb & Hup0 & Hsets).
  rewrite Hread in Hfst. inversion Hfst; subst order'. clear Hfst.
  destruct (getTokenAddressesSorted now w) as [res w0] eqn:Hrun.
  cbn [fst snd] in *. subst res.
  exists w0. rewrite Hup0. repeat split; auto.
  unfold updateTokensByRankRange, try_catch, bind. rewrite Hrun.
  destruct (slice startRank endRank order) as [|t ts] eqn:Hwin;
    [now contradiction Htick|].
  cbn [nonempty negb].
  fold (tickerOf). fold (tickersOf (t :: ts)).
  destruct (tickersOf (t :: ts)) as [|k ks] eqn:Hks; [now contradiction Htick|].
  cbn [nonempty negb]. unfold fetchAnalysis. rewrite Hfetch. unfold ret at 1.
  destruct (forEach_refresh (analysisMap topTrending) now (t :: ts) w0)
    as (w' & Hloop & _); [congruence|].
  now rewrite Hloop.
Qed.

(** The cycle never throws. *)
Lemma updateTokensByRankRange_returns
    (analyzeTrends : list string -> option (list AnalyzedToken))
    (startRank : nat) (endRank : Bound) (now : Z) (w : World) :
  fst (updateTokensByRankRange analyzeTrends startRank endRank now w) = Ok tt.
Proof.
  unfold updateTokensByRankRange, try_catch.
  destruct (bind _ _ w) as [[[]|] w']; reflexivity.
Qed.

(** ** Which records a cycle refreshes *)

(** C7, as stated, fails: a record of rank 0 that the social path wrote one
    minute before the five-minute tick of the top tier is not due, and the
    tick writes it again. *)
Lemma recent_record_refreshed_again :
  lookup "0xA" (db Cycle.recentlyRefreshed) = Some Cycle.fusedPepe /\
  ~ due HIGH 1000000 Cycle.fusedPepe /\
  sets (snd (scheduledUpdate Cycle.noResults HIGH 1000000 Cycle.recentlyRefreshed))
    = [("0xA",
        updatedData Cycle.fusedPepe 30 52 (noMentions (toRanked Cycle.fusedPepe))
          1000000)].
Proof.
  split; [reflexivity|]. split; [|reflexivity].
  unfold due; cbn. lia.
Qed.

(** C7, amended. A tick of a tier's timer, on a reachable store, with the
    social collaborators answering and at least one ticker in the window,
    refreshes every record in the tier's rank window of the current ranking,
    whatever the time of its last social refresh: it issues one SET per
    window entry whose address has a record, in rank order, leaves each such
    record stamped with the time of the tick, and touches no other address.
    The windows are ranks [0,20) every 5 minutes, [20,100) every 20 minutes
    and [100,inf) every 30 minutes. *)
Theorem social_cycle_refreshes_window
    (analyzeTrends : list string -> option (list AnalyzedToken))
    (tier : Tier) (now : Z) (w : World)
    (order : list Ranked.t) (topTrending : list AnalyzedToken) :
  up w = true ->
  fst (getTokenAddressesSorted now w) = Ok order ->
  let window := slice (fst (tierWindow tier)) (snd (tierWindow tier)) order in
  tickersOf window <> [] ->
  analyzeTrends (tickersOf window) = Some topTrending ->
  let w' := snd (scheduledUpdate analyzeTrends tier now w) in
  (exists new,
      sets w' = (sets w ++ new)%list /\
      map fst new = filter (fun a => has a (db w)) (map Ranked.address window))
  /\
  (forall t r, In t window -> lookup (Ranked.address t) (db w) = Some r ->
     exists r', lookup (Ranked.address t) (db w') = Some r' /\ refreshedAt now r')
  /\
  (forall a, ~ In a (map Ranked.address window) ->
     lookup a (db w') = lookup a (db w))
  /\
  (tierWindow HIGH = (0%nat, Finite 20) /\ tierPeriod HIGH = (5 * 60 * 1000)%Z /\
   tierWindow MEDIUM = (20%nat, Finite 100) /\ tierPeriod MEDIUM = (20 * 60 * 1000)%Z /\
   tierWindow LOW = (100%nat, Infinity) /\ tierPeriod LOW = (30 * 60 * 1000)%Z).
Proof.
  intros Hup Hread window Htick Hfetch w'. subst w'. unfold scheduledUpdate.
  destruct (cycle_runs analyzeTrends _ _ now w order topTrending
              Hup Hread Htick Hfetch) as (w0 & Hup0 & Hdb0 & Hsets0 & Hrun).
  rewrite Hrun. fold window.
  destruct (forEach_refresh (analysisMap topTrending) now window w0 Hup0)
    as (w' & Hloop & _ & _ & Hframe & Hfresh & new & Hsets & Hnew).
  rewrite Hloop. cbn [snd]. rewrite Hdb0, Hsets0 in *.
  split; [exists new; now split|].
  split; [|split; [exact Hframe | repeat split]].
  intros t r Hin Hget.
  destruct (Hfresh (Ranked.address t) r (in_map _ _ _ Hin) Hget)
    as (t' & r0 & _ & _ & _ & Hfin).
  eexists; split; [exact Hfin | apply written_refreshedAt].
Qed.

Lemma social_cycle_refreshes_window_witness :
  up Cycle.recentlyRefreshed = true /\
  fst (getTokenAddressesSorted 1000000 Cycle.recentlyRefreshed)
    = Ok [toRanked Cycle.fusedPepe] /\
  let window :=
    slice (fst (tierWindow HIGH)) (snd (tierWindow HIGH))
      [toRanked Cycle.fusedPepe] in
  tickersOf window <> [] /\
  Cycle.noResults (tickersOf window) = Some [] /\
  let w' := snd (scheduledUpdate Cycle.noResults HIGH 1000000 Cycle.recentlyRefreshed) in
  (exists new,
      sets w' = (sets Cycle.recentlyRefreshed ++ new)%list /\
      map fst new = filter (fun a => has a (db Cycle.recentlyRefreshed))
                      (map Ranked.address window))
  /\
  (forall t r, In t window ->
     lookup (Ranked.address t) (db Cycle.recentlyRefreshed) = Some r ->
     exists r', lookup (Ranked.address t) (db w') = Some r' /\
                refreshedAt 1000000 r')
  /\
  (forall a, ~ In a (map Ranked.address window) ->
     lookup a (db w') = lookup a (db Cycle.recentlyRefreshed))
  /\
  (tierWindow HIGH = (0%nat, Finite 20) /\ tierPeriod HIGH = (5 * 60 * 1000)%Z /\
   tierWindow MEDIUM = (20%nat, Finite 100) /\ tierPeriod MEDIUM = (20 * 60 * 1000)%Z /\
   tierWindow LOW = (100%nat, Infinity) /\ tierPeriod LOW = (30 * 60 * 1000)%Z).
Proof.
  split; [reflexivity|]. split; [reflexivity|].
  intros window. split; [discriminate|]. split; [reflexivity|].
  apply (social_cycle_refreshes_window Cycle.noResults HIGH 1000000
           Cycle.recentlyRefreshed [toRanked Cycle.fusedPepe] []);
    [reflexivity | reflexivity | discriminate | reflexivity].
Defined.

(** * Further properties of the service *)

(** ** Invalidation by hand *)

(** X1. After [/clear-cache] the next ranked read on a reachable store is rebuilt
    from the store, whatever the time of the read and whatever was cached. *)
Theorem clear_cache_forces_rebuild (now : Z) (w : World) :
  up w = true ->
  fst (getTokenAddressesSorted now (clear_cache w)) = Ok (rebuild (db w)) /\
  db (clear_cache w) = db w /\ sets (clear_cache w) = sets w.
Proof.
  intros Hup. split; [|split; reflexivity].
  rewrite ranked_read_miss; [reflexivity | | exact Hup].
  apply cacheFresh_false. now left.
Qed.

Lemma clear_cache_forces_rebuild_witness :
  up Sample.staleSnapshot = true /\
  fst (getTokenAddressesSorted 1 (clear_cache Sample.staleSnapshot))
    = Ok (rebuild (db Sample.staleSnapshot)) /\
  db (clear_cache Sample.staleSnapshot) = db Sample.staleSnapshot /\
  sets (clear_cache Sample.staleSnapshot) = sets Sample.staleSnapshot.
Proof.
  split; [reflexivity|].
  apply (clear_cache_forces_rebuild 1 Sample.staleSnapshot); reflexivity.
Defined.

(** ** Staleness of the snapshot *)

(** X2. Once a rebuild at time [now] has cached the order of a store that holds
    a token key, every read less than two minutes later returns that same
    order, whatever the store holds by then and whether or not it answers:
    changes made to the store by others stay invisible until the window
    ends or a social write empties the cache. *)
Theorem snapshot_served_within_window
    (now later : Z) (w : World) (d2 : list (string * Token.t)) (up2 : bool) :
  up w = true ->
  cachedRankings w = [] \/ (2 * 60 * 1000 <= now - lastRankingUpdate w)%Z ->
  records (db w) <> [] ->
  (later - now < 2 * 60 * 1000)%Z ->
  let w1 := snd (getTokenAddressesSorted now w) in
  let w2 := mkWorld d2 up2 (sets w1) (cachedRankings w1) (lastRankingUpdate w1) in
  getTokenAddressesSorted later w2 = (Ok (rebuild (db w)), w2).
Proof.
  intros Hup Hmiss Hrec Hage w1 w2. subst w2 w1.
  rewrite (ranked_read_miss now w); auto using cacheFresh_false.
  assert (Hkeys : nonempty (tokenKeys (db w)) = true).
  { unfold records in Hrec. destruct (tokenKeys (db w)); [|reflexivity].
    now contradiction Hrec. }
  rewrite Hkeys. cbn [snd sets cachedRankings lastRankingUpdate].
  rewrite ranked_read_hit; [reflexivity|].
  apply cacheFresh_true; cbn [cachedRankings lastRankingUpdate]; [|exact Hage].
  intros Hnil. apply Hrec.
  assert (Hlen : List.length (rebuild (db w))
                 = List.length (map toRanked (records (db w))))
    by (apply Permutation_length, sort_perm).
  rewrite Hnil, List.length_map in Hlen.
  destruct (records (db w)); [reflexivity | discriminate].
Qed.

Lemma snapshot_served_within_window_witness :
  up Sample.storeCBA = true /\
  (cachedRankings Sample.storeCBA = [] \/
   (2 * 60 * 1000 <= 1000 - lastRankingUpdate Sample.storeCBA)%Z) /\
  records (db Sample.storeCBA) <> [] /\
  (120999 - 1000 < 2 * 60 * 1000)%Z /\
  let w1 := snd (getTokenAddressesSorted 1000 Sample.storeCBA) in
  let w2 := mkWorld [] false (sets w1) (cachedRankings w1) (lastRankingUpdate w1) in
  getTokenAddressesSorted 120999 w2 = (Ok (rebuild (db Sample.storeCBA)), w2).
Proof.
  split; [reflexivity|]. split; [left; reflexivity|].
  split; [discriminate|]. split; [reflexivity|].
  apply (snapshot_served_within_window 1000 120999 Sample.storeCBA [] false);
    [reflexivity | left; reflexivity | discriminate | reflexivity].
Defined.

(** ** What the social path never touches *)

Lemma keys_upsert_present {V} (k : string) (v v0 : V) (l : list (string * V)) :
  lookup k l = Some v0 -> map fst (upsert k v l) = map fst l.
Proof.
  induction l as [|[k' v'] l IH]; cbn; [discriminate|].
  destruct (String.eqb k k') eqn:E; cbn.
  - apply String.eqb_eq in E. now subst.
  - intros H. now rewrite IH.
Qed.

Lemma sameOnChain_refl (r : Token.t) : sameOnChain r r.
Proof. repeat split. Qed.

Lemma sameOnChain_trans (r1 r2 r3 : Token.t) :
  sameOnChain r1 r2 -> sameOnChain r2 r3 -> sameOnChain r1 r3.
Proof.
  unfold sameOnChain. intros (A1 & A2 & A3 & A4 & A5) (B1 & B2 & B3 & B4 & B5).
  repeat split; congruence.
Qed.

Lemma writesOnly_refl (w : World) : writesOnly w w.
Proof.
  repeat split; auto.
  - intros k r Hk. exists r. split; [exact Hk | apply sameOnChain_refl].
  - exists []. rewrite app_nil_r. repeat split; auto. congruence.
Qed.

Lemma writesOnly_trans (w1 w2 w3 : World) :
  writesOnly w1 w2 -> writesOnly w2 w3 -> writesOnly w1 w3.
Proof.
  intros (U1 & L1 & K1 & O1 & n1 & S1 & E1 & C1)
         (U2 & L2 & K2 & O2 & n2 & S2 & E2 & C2).
  split; [congruence|]. split; [congruence|]. split; [congruence|].
  split.
  - intros k r Hk.
    destruct (O1 k r Hk) as (r' & Hk' & Hs).
    destruct (O2 k r' Hk') as (r'' & Hk'' & Hs').
    exists r''. split; [exact Hk''|]. eapply sameOnChain_trans; eassumption.
  - exists (n1 ++ n2)%list. split; [rewrite S2, S1; apply eq_sym, app_assoc|].
    split.
    + intros Hnil. apply app_eq_nil in Hnil as [-> ->].
      rewrite (E2 eq_refl). now apply E1.
    + intros Hne. destruct n2 as [|x n2].
      * rewrite (E2 eq_refl). rewrite app_nil_r in Hne. now apply C1.
      * destruct C2 as [Hup2 Hc]; [discriminate|].
        split; [congruence | exact Hc].
Qed.

Lemma update_writesOnly (address : string) (s : Q) (a : AnalyzedToken)
    (now : Z) (w : World) :
  exists w',
    updateTokenSocialScore address s a now w = (Ok tt, w') /\ writesOnly w w'.
Proof.
  destruct (up w) eqn:Hup.
  - destruct (lookup address (db w)) as [r|] eqn:Hget.
    + rewrite (update_present _ _ _ _ _ _ Hup Hget).
      eexists; split; [reflexivity|].
      split; [reflexivity|]. split; [reflexivity|]. cbn [db sets cachedRankings].
      split; [eapply keys_upsert_present; eassumption|].
      split.
      * intros k r0 Hk.
        destruct (String.eqb_spec k address) as [->|Hne].
        -- rewrite lookup_upsert_same. eexists; split; [reflexivity|].
           rewrite Hget in Hk. inversion Hk; subst. repeat split.
        -- rewrite lookup_upsert_other by exact Hne.
           exists r0. split; [exact Hk | apply sameOnChain_refl].
      * eexists; split; [reflexivity|]. split; [discriminate|].
        intros _. split; [exact Hup | reflexivity].
    + rewrite (update_absent _ _ _ _ _ Hget).
      eexists; split; [reflexivity | apply writesOnly_refl].
  - rewrite (update_down _ _ _ _ _ Hup).
    eexists; split; [reflexivity | apply writesOnly_refl].
Qed.

Lemma forEach_writesOnly (m : list (string * AnalyzedToken)) (now : Z)
    (ts : list Ranked.t) :
  forall w, exists w',
    forEach (refreshToken m now) ts w = (Ok tt, w') /\ writesOnly w w'.
Proof.
  induction ts as [|t ts IH]; intros w.
  - exists w. split; [reflexivity | apply writesOnly_refl].
  - destruct (update_writesOnly (Ranked.address t) (socialScoreOf m t)
                (finalAnalysisOf m t) now w) as (w1 & Hstep & H1).
    destruct (IH w1) as (w' & Hrest & H2).
    exists w'. split; [|eapply writesOnly_trans; eassumption].
    cbn [forEach]. unfold bind.
    change (refreshToken m now t) with
      (updateTokenSocialScore (Ranked.address t) (socialScoreOf m t)
         (finalAnalysisOf m t) now).
    now rewrite Hstep.
Qed.

(** Every run of a cycle is the ranked read followed by a loop of social
    writes over some window, possibly empty. *)
Lemma cycle_shape (analyzeTrends : list string -> option (list AnalyzedToken))
    (startRank : nat) (endRank : Bound) (now : Z) (w : World) :
  exists w',
    updateTokensByRankRange analyzeTrends startRank endRank now w = (Ok tt, w') /\
    writesOnly (snd (getTokenAddressesSorted now w)) w' /\
    ((forall tickers, analyzeTrends tickers = None) ->
     w' = snd (getTokenAddressesSorted now w)).
Proof.
  destruct (ranked_read_frame now w) as (order & Hfst & _).
  unfold updateTokensByRankRange, try_catch, bind.
  destruct (getTokenAddressesSorted now w) as [res w0].
  cbn [fst snd] in *. subst res.
  destruct (slice startRank endRank order) as [|t ts] eqn:Hwin; cbn [nonempty negb].
  { exists w0. split; [reflexivity|]. split; [apply writesOnly_refl | auto]. }
  destruct (filter nonblank _) as [|k ks] eqn:Hks; cbn [nonempty negb].
  { exists w0. split; [reflexivity|]. split; [apply writesOnly_refl | auto]. }
  unfold fetchAnalysis.
  destruct (analyzeTrends (k :: ks)) as [topTrending|] eqn:Hfetch.
  - unfold ret at 1.
    destruct (forEach_writesOnly (analysisMap topTrending) now (t :: ts) w0)
      as (w' & Hloop & Heff).
    rewrite Hloop. exists w'. split; [reflexivity|]. split; [exact Heff|].
    intros Hnone. rewrite Hnone in Hfetch. discriminate.
  - exists w0. split; [reflexivity|]. split; [apply writesOnly_refl | auto].
Qed.

(** X4. A social refresh cycle, whatever its window, the answer of the
    collaborators and the state of the store, neither creates nor deletes a
    key of the store, and every record keeps its address, name, symbol,
    on-chain score and untouched fields. *)
Theorem cycle_keeps_onchain_data
    (analyzeTrends : list string -> option (list AnalyzedToken))
    (startRank : nat) (endRank : Bound) (now : Z) (w : World) :
  let w' := snd (updateTokensByRankRange analyzeTrends startRank endRank now w) in
  map fst (db w') = map fst (db w) /\
  forall k r, lookup k (db w) = Some r ->
    exists r', lookup k (db w') = Some r' /\ sameOnChain r r'.
Proof.
  destruct (cycle_shape analyzeTrends startRank endRank now w)
    as (w' & Hrun & (_ & _ & Hkeys & Hon & _) & _).
  destruct (ranked_read_frame now w) as (order & _ & Hdb & _).
  rewrite Hrun. cbn [snd]. rewrite Hdb in *. split; assumption.
Qed.

(** X6. A cycle whose social collaborators fail issues no SET and leaves the
    store as it was: the stored scores are neither replaced by the default
    nor stamped. *)
Theorem cycle_without_collaborators_writes_nothing
    (analyzeTrends : list string -> option (list AnalyzedToken))
    (startRank : nat) (endRank : Bound) (now : Z) (w : World) :
  (forall tickers, analyzeTrends tickers = None) ->
  let w' := snd (updateTokensByRankRange analyzeTrends startRank endRank now w) in
  sets w' = sets w /\ db w' = db w.
Proof.
  intros Hnone.
  destruct (cycle_shape analyzeTrends startRank endRank now w)
    as (w' & Hrun & _ & Hsame).
  destruct (ranked_read_frame now w) as (order & _ & Hdb & _ & Hsets0).
  rewrite Hrun. cbn [snd]. rewrite (Hsame Hnone). split; assumption.
Qed.

Lemma cycle_without_collaborators_writes_nothing_witness :
  (forall tickers, collaboratorsDown tickers = None) /\
  let w' := snd (updateTokensByRankRange collaboratorsDown 0 (Finite 20) 1000000
                   Cycle.recentlyRefreshed) in
  sets w' = sets Cycle.recentlyRefreshed /\ db w' = db Cycle.recentlyRefreshed.
Proof.
  split; [reflexivity|].
  apply (cycle_without_collaborators_writes_nothing collaboratorsDown 0
           (Finite 20) 1000000 Cycle.recentlyRefreshed); reflexivity.
Defined.

(** X7. A cycle that issued at least one SET ends with the cached ranking empty,
    so the next ranked read, whenever it comes, is rebuilt from the store as
    the cycle left it. *)
Theorem cycle_write_invalidates
    (analyzeTrends : list string -> option (list AnalyzedToken))
    (startRank : nat) (endRank : Bound) (now : Z) (w : World) :
  let w' := snd (updateTokensByRankRange analyzeTrends startRank endRank now w) in
  sets w' <> sets w ->
  cachedRankings w' = [] /\
  forall later, fst (getTokenAddressesSorted later w') = Ok (rebuild (db w')).
Proof.
  destruct (cycle_shape analyzeTrends startRank endRank now w)
    as (w' & Hrun & (Hup' & _ & _ & _ & new & Hsets & Hnil & Hne) & _).
  destruct (ranked_read_frame now w) as (order & _ & Hdb & Hup0 & Hsets0).
  rewrite Hrun. cbn [snd]. intros Hwrote.
  destruct new as [|x new].
  - exfalso. apply Hwrote. rewrite (Hnil eq_refl). exact Hsets0.
  - destruct Hne as [Hupw Hcache]; [discriminate|].
    split; [exact Hcache|].
    intros later. rewrite ranked_read_miss; [reflexivity | | congruence].
    apply cacheFresh_false. now left.
Qed.

Lemma cycle_write_invalidates_witness :
  let w' := snd (updateTokensByRankRange Cycle.noResults 0 (Finite 20) 1000000
                   Cycle.recentlyRefreshed) in
  sets w' <> sets Cycle.recentlyRefreshed /\
  cachedRankings w' = [] /\
  forall later, fst (getTokenAddressesSorted later w') = Ok (rebuild (db w')).
Proof.
  split; [discriminate|].
  apply (cycle_write_invalidates Cycle.noResults 0 (Finite 20) 1000000
           Cycle.recentlyRefreshed); discriminate.
Defined.

(** X8. For a request whose body leaves [startRank] and [endRank] out or
    gives them as non-negative integers, [/update-social-scores] answers with
    success: an unreachable store, failing collaborators or an empty window
    never turn into its error status. *)
Theorem update_social_scores_always_succeeds
    (analyzeTrends : list string -> option (list AnalyzedToken))
    (startRank : option nat) (endRank : option Bound) (now : Z) (w : World) :
  fst (update_social_scores analyzeTrends startRank endRank now w) = UpdateSuccess.
Proof.
  unfold update_social_scores.
  pose proof (updateTokensByRankRange_returns analyzeTrends
                (JS.default startRank 0%nat) (JS.default endRank Infinity) now w)
    as Hret.
  destruct (updateTokensByRankRange _ _ _ _ _) as [[u|] w']; [reflexivity|].
  discriminate.
Qed.

(** ** Shape of the social score *)













(** ** The top-tokens route *)

Lemma present_length {A} (l : list (option A)) :
  (List.length (present l) <= List.length l)%nat.
Proof.
  induction l as [|[a|] l IH]; cbn; lia.
Qed.

Lemma present_In {A} (a : A) (l : list (option A)) :
  In a (present l) -> In (Some a) l.
Proof.
  induction l as [|[b|] l IH]; cbn; [tauto | | tauto].
  intros [->|H]; [now left | right; auto].
Qed.

Lemma withRank_ranks (i : nat) (l : list Token.t) :
  map snd (withRank i l) = seq (S i) (List.length l) /\
  map fst (withRank i l) = l.
Proof.
  revert i. induction l as [|t l IH]; intros i; [split; reflexivity|].
  destruct (IH (S i)) as [Hs Hf]. cbn. now rewrite Hs, Hf.
Qed.

Lemma Forall_firstn {A} (P : A -> Prop) (n : nat) (l : list A) :
  Forall P l -> Forall P (firstn n l).
Proof.
  revert l. induction n as [|n IH]; intros l H; [constructor|].
  destruct l as [|a l]; [constructor|].
  inversion H; subst. cbn. constructor; auto.
Qed.

(** X13. Whenever [/top-tokens] answers with a body, the body holds at most
    [limit] records and numbers them 1, 2, 3, ... in the order listed. *)
Theorem top_tokens_ranks
    (limit : nat) (now : Z) (w : World) (body : list (Token.t * nat)) :
  fst (top_tokens limit now w) = Json body ->
  (List.length body <= limit)%nat /\
  map snd body = seq 1 (List.length body).
Proof.
  unfold top_tokens, bind.
  destruct (getTokenAddressesSorted now w) as [[tokens|] w0]; [|discriminate].
  unfold client.mGet. destruct (up w0); [|discriminate].
  destruct (map Ranked.address (slice 0 (Finite limit) tokens)) as [|k ks] eqn:Hks;
    [discriminate|].
  rewrite <- Hks. clear k ks Hks.
  cbn [ret fst]. intros Hbody. inversion Hbody; subst body. clear Hbody.
  set (found := present _).
  destruct (withRank_ranks 0 found) as [Hs Hf].
  assert (Hlen : List.length (withRank 0 found) = List.length found)
    by (rewrite <- Hf at 2; now rewrite List.length_map).
  rewrite Hlen. split; [|exact Hs].
  subst found. eapply Nat.le_trans; [apply present_length|].
  rewrite !List.length_map. unfold slice. cbn [skipn].
  apply firstn_le_length.
Qed.

Lemma top_tokens_ranks_witness :
  fst (top_tokens 2 1000 Sample.storeCBA)
    = Json [(Sample.tokB, 1%nat); (Sample.tokA, 2%nat)] /\
  (List.length [(Sample.tokB, 1%nat); (Sample.tokA, 2%nat)] <= 2)%nat /\
  map snd [(Sample.tokB, 1%nat); (Sample.tokA, 2%nat)]
    = seq 1 (List.length [(Sample.tokB, 1%nat); (Sample.tokA, 2%nat)]).
Proof.
  split; [reflexivity|].
  apply (top_tokens_ranks 2 1000 Sample.storeCBA
           [(Sample.tokB, 1%nat); (Sample.tokA, 2%nat)]); reflexivity.
Defined.

Lemma rebuild_entry_has_record (d : list (string * Token.t)) (e : Ranked.t) :
  keyedByAddress d ->
  In e (rebuild d) ->
  exists r, lookup (Ranked.address e) d = Some r /\ toRanked r = e.
Proof.
  intros Hkeyed Hin.
  apply (Permutation_in _ (sort_perm _)) in Hin.
  apply in_map_iff in Hin as (r & <- & Hr).
  unfold records in Hr. apply present_In in Hr.
  apply in_map_iff in Hr as (k & Hk & _).
  exists r. split; [|reflexivity].
  cbn [toRanked Ranked.address]. now rewrite (Hkeyed k r Hk).
Qed.

Lemma records_of_entries (d : list (string * Token.t)) (l : list Ranked.t) :
  Forall (fun e => exists r, lookup (Ranked.address e) d = Some r /\ toRanked r = e) l ->
  map toRanked (present (map (fun k => lookup k d) (map Ranked.address l))) = l.
Proof.
  induction 1 as [|e l (r & Hr & He) _ IH]; [reflexivity|].
  cbn [map]. rewrite Hr. cbn [present map]. now rewrite He, IH.
Qed.

Lemma present_lookup_keyed (d : list (string * Token.t)) (ks : list string) :
  keyedByAddress d ->
  Forall (fun r => lookup (Token.address r) d = Some r)
    (present (map (fun k => lookup k d) ks)).
Proof.
  intros Hkeyed. induction ks as [|k ks IH]; [constructor|].
  cbn [map]. destruct (lookup k d) as [r|] eqn:Hr; cbn [present]; [|exact IH].
  constructor; [|exact IH]. now rewrite (Hkeyed k r Hr).
Qed.

Lemma rebuild_nonempty (d : list (string * Token.t)) :
  records d <> [] -> rebuild d <> [].
Proof.
  intros Hne Hnil. apply Hne.
  pose proof (Permutation_length (sort_perm (map toRanked (records d)))) as Hlen.
  unfold rebuild in Hnil. rewrite Hnil, List.length_map in Hlen.
  destruct (records d); [reflexivity | discriminate].
Qed.

(** X14. When every record sits under its own address, the store is reachable
    and holds a token record, the ranked read rebuilds and the limit is
    positive, [/top-tokens] answers with records that are each the one stored
    under its address and whose ranking entries are, in order, the first
    [limit] entries of the ranking. *)
Theorem top_tokens_lists_ranking_head (limit : nat) (now : Z) (w : World) :
  up w = true ->
  cachedRankings w = [] \/ (2 * 60 * 1000 <= now - lastRankingUpdate w)%Z ->
  keyedByAddress (db w) ->
  (0 < limit)%nat ->
  records (db w) <> [] ->
  exists body,
    fst (top_tokens limit now w) = Json body /\
    map toRanked (map fst body) = firstn limit (rebuild (db w)) /\
    Forall (fun r => lookup (Token.address r) (db w) = Some r) (map fst body).
Proof.
  intros Hup Hmiss Hkeyed Hlimit Hrecs.
  unfold top_tokens, bind.
  rewrite ranked_read_miss; auto using cacheFresh_false.
  unfold client.mGet.
  assert (Hup0 : up (if nonempty (tokenKeys (db w))
                     then mkWorld (db w) (up w) (sets w) (rebuild (db w)) now
                     else w) = true)
    by (destruct (nonempty _); exact Hup).
  assert (Hdb0 : db (if nonempty (tokenKeys (db w))
                     then mkWorld (db w) (up w) (sets w) (rebuild (db w)) now
                     else w) = db w)
    by (destruct (nonempty _); reflexivity).
  rewrite Hup0, Hdb0.
  unfold slice. cbn [skipn].
  destruct (map Ranked.address (firstn limit (rebuild (db w)))) as [|k ks] eqn:Hks.
  - exfalso. apply (rebuild_nonempty (db w) Hrecs).
    destruct (rebuild (db w)); [reflexivity|].
    destruct limit; [lia | discriminate].
  - rewrite <- Hks. clear k ks Hks. cbn [ret fst].
    eexists; split; [reflexivity|].
    rewrite (proj2 (withRank_ranks 0 _)). split.
    + apply records_of_entries, Forall_firstn.
      apply Forall_forall. intros e He.
      now apply rebuild_entry_has_record.
    + now apply present_lookup_keyed.
Qed.

Lemma top_tokens_lists_ranking_head_witness :
  up Sample.storeCBA = true /\
  (cachedRankings Sample.storeCBA = [] \/
   (2 * 60 * 1000 <= 1000 - lastRankingUpdate Sample.storeCBA)%Z) /\
  keyedByAddress (db Sample.storeCBA) /\
  (0 < 2)%nat /\
  records (db Sample.storeCBA) <> [] /\
  exists body,
    fst (top_tokens 2 1000 Sample.storeCBA) = Json body /\
    map toRanked (map fst body) = firstn 2 (rebuild (db Sample.storeCBA)) /\
    Forall (fun r => lookup (Token.address r) (db Sample.storeCBA) = Some r)
      (map fst body).
Proof.
  assert (Hkeyed : keyedByAddress (db Sample.storeCBA)).
  { intros k r. cbn [Sample.storeCBA db lookup].
    destruct (String.eqb_spec k "0xC") as [->|_];
      [intros H; inversion H; reflexivity|].
    destruct (String.eqb_spec k "0xB") as [->|_];
      [intros H; inversion H; reflexivity|].
    destruct (String.eqb_spec k "0xA") as [->|_];
      [intros H; inversion H; reflexivity | discriminate]. }
  split; [reflexivity|]. split; [left; reflexivity|]. split; [exact Hkeyed|].
  split; [lia|]. split; [discriminate|].
  apply (top_tokens_lists_ranking_head 2 1000 Sample.storeCBA);
    [reflexivity | left; reflexivity | exact Hkeyed | lia | discriminate].
Defined.

(** With no token in the store the route asks the store for no key at all and
    answers with its error status. *)
Example top_tokens_empty_store :
  fst (top_tokens 50 200000 Sample.emptiedStore) = Status500.
Proof. reflexivity. Qed.

(** * Properties of the social fetch *)

(** ** De-duplication through a [Map] *)

Lemma upsert_keys {V} (k : string) (v : V) (m : list (string * V)) :
  map fst (upsert k v m)
  = if in_dec string_dec k (map fst m) then map fst m
    else (map fst m ++ [k])%list.
Proof.
  induction m as [|[k' v'] m IH]; [reflexivity|].
  cbn [upsert map fst].
  destruct (String.eqb_spec k k') as [->|Hne].
  - cbn. destruct (string_dec k' k'); [|contradiction].
    now destruct (in_dec _ _ _).
  - cbn [map fst]. rewrite IH.
    destruct (in_dec string_dec k (map fst m)) as [Hin|Hnin];
      destruct (in_dec string_dec k (k' :: map fst m)) as [Hin'|Hnin'];
      try reflexivity.
    + exfalso. apply Hnin'. now right.
    + exfalso. destruct Hin' as [->|Hin']; [now apply Hne | now apply Hnin].
Qed.

Lemma upsert_NoDup {V} (k : string) (v : V) (m : list (string * V)) :
  NoDup (map fst m) -> NoDup (map fst (upsert k v m)).
Proof.
  intros Hnd. rewrite upsert_keys.
  destruct (in_dec string_dec k (map fst m)) as [Hin|Hnin]; [exact Hnd|].
  apply NoDup_app; [exact Hnd | repeat constructor; intros [] |].
  intros x Hx [<-|[]]. contradiction.
Qed.

Lemma upsert_In {V} (k k0 : string) (v v0 : V) (m : list (string * V)) :
  In (k, v) (upsert k0 v0 m) ->
  (k = k0 /\ v = v0) \/ (k <> k0 /\ In (k, v) m) \/ (k = k0 /\ In (k, v) m).
Proof.
  induction m as [|[k' v'] m IH]; cbn [upsert].
  - intros [H|[]]. inversion H; subst. now left.
  - destruct (String.eqb_spec k0 k') as [->|Hne].
    + intros [H|H]; [inversion H; subst; now left|].
      destruct (string_dec k k') as [->|Hk].
      * right; right. split; [reflexivity | now right].
      * right; left. split; [exact Hk | now right].
    + intros [H|H].
      * inversion H; subst. right; left. split; [congruence | now left].
      * destruct (IH H) as [Ha|[[Hb Hc]|[Hb Hc]]]; auto.
        -- right; left. split; [exact Hb | now right].
        -- right; right. split; [exact Hb | now right].
Qed.

Lemma NoDup_keys_functional {V} (k : string) (v v' : V) (m : list (string * V)) :
  NoDup (map fst m) -> In (k, v) m -> In (k, v') m -> v = v'.
Proof.
  induction m as [|[k0 v0] m IH]; [intros _ []|].
  cbn [map fst]. intros Hnd. inversion Hnd as [|? ? Hnin Hnd']; subst.
  intros [H|H] [H'|H'].
  - congruence.
  - inversion H; subst. exfalso. apply Hnin.
    change k with (fst (k, v')). now apply in_map.
  - inversion H'; subst. exfalso. apply Hnin.
    change k with (fst (k, v)). now apply in_map.
  - now apply IH.
Qed.

Lemma upsert_In_same {V} (k : string) (v : V) (m : list (string * V)) :
  In (k, v) (upsert k v m).
Proof.
  induction m as [|[k' v'] m IH]; cbn [upsert]; [now left|].
  destruct (String.eqb k k'); [now left | now right].
Qed.

Section Dedup.

Context {A : Type} (id : A -> string).

(** The state of the [Map] after the items of [l] have been set. *)
Lemma map_after (l : list A) :
  let m := setAll id l in
  NoDup (map fst m) /\
  (forall k v, In (k, v) m ->
     id v = k /\
     exists l1 l2, l = (l1 ++ v :: l2)%list /\ ~ In k (map id l2)) /\
  (forall x, In x l -> In (id x) (map fst m)).
Proof.
  induction l as [|x l IH] using rev_ind.
  - cbn. split; [constructor|]. split; [intros k v []|intros x []].
  - cbn zeta in *. unfold setAll in *. rewrite fold_left_app. cbn [fold_left].
    set (m := fold_left _ l []) in *.
    destruct IH as (Hnd & Hent & Hcov).
    pose proof (upsert_NoDup (id x) x m Hnd) as Hnd'.
    split; [exact Hnd'|]. split.
    + intros k v Hin.
      assert (Hcase : (k = id x /\ v = x) \/ (k <> id x /\ In (k, v) m)).
      { destruct (upsert_In _ _ _ _ _ Hin) as [Ha|[Hb|[-> Hc]]]; auto.
        left. split; [reflexivity|].
        exact (NoDup_keys_functional _ _ _ _ Hnd' Hin (upsert_In_same _ _ _)). }
      destruct Hcase as [[-> ->]|[Hne Hm]].
      * split; [reflexivity|]. exists l, []. split; [reflexivity | intros []].
      * destruct (Hent k v Hm) as (Hid & l1 & l2 & -> & Hnin).
        split; [exact Hid|].
        exists l1, (l2 ++ [x])%list. split.
        -- now rewrite <- app_assoc.
        -- rewrite map_app. intros Hin'. apply in_app_or in Hin' as [H|[H|[]]].
           ++ now apply Hnin.
           ++ now apply Hne.
    + intros y Hy. rewrite upsert_keys.
      apply in_app_or in Hy as [Hy|[<-|[]]].
      * destruct (in_dec _ _ _); [now apply Hcov|].
        apply in_or_app. left. now apply Hcov.
      * destruct (in_dec string_dec (id x) (map fst m)) as [H|H]; [exact H|].
        apply in_or_app. right. now left.
Qed.

Lemma uniqueById_ids (l : list A) :
  map id (uniqueById id l) = map fst (setAll id l).
Proof.
  unfold uniqueById.
  destruct (map_after l) as (_ & Hent & _).
  cbn zeta in Hent.
  induction (setAll id l) as [|[k v] m IH]; [reflexivity|].
  cbn [map fst snd]. f_equal.
  - apply (Hent k v). now left.
  - apply IH. intros k' v' H. apply Hent. now right.
Qed.

(** The items kept have pairwise distinct ids, every id given is kept, and
    the item kept for an id is the last one given with that id. *)
Lemma uniqueById_spec (l : list A) :
  NoDup (map id (uniqueById id l)) /\
  (forall x, In x l -> In (id x) (map id (uniqueById id l))) /\
  (forall v, In v (uniqueById id l) ->
     exists l1 l2, l = (l1 ++ v :: l2)%list /\ ~ In (id v) (map id l2)).
Proof.
  rewrite uniqueById_ids.
  destruct (map_after l) as (Hnd & Hent & Hcov). cbn zeta in *.
  split; [exact Hnd|]. split; [exact Hcov|].
  intros v Hv. unfold uniqueById in Hv.
  apply in_map_iff in Hv as ([k v'] & Heq & Hin). cbn in Heq. subst v'.
  destruct (Hent k v Hin) as (<- & Hlast). exact Hlast.
Qed.

End Dedup.

Section FetchProps.

Variable nowISO : string.
Variable toISOString : Q -> string.
Variable trim : string -> string.
Variable twitterSearch : string -> nat -> list Tweet.t.
Variable getSubreddit : string -> bool.
Variable subredditSearch : string -> string -> option (list Submission.t).
Variable getHot : string -> option (list Submission.t).

Lemma fetchTweets_ids (coins terms tags : list string) :
  map Post.id (fetchTweets nowISO twitterSearch coins terms tags)
  = map Tweet.id
      (uniqueById Tweet.id
         (twitterSearch (searchQuery 3 coins) 3
          ++ twitterSearch (searchQuery 2 terms) 3)).
Proof.
  unfold fetchTweets. rewrite map_map. reflexivity.
Qed.

Lemma fetchReddit_ids (coins terms subs : list string) :
  map Post.id
    (fetchReddit toISOString trim getSubreddit subredditSearch getHot
       coins terms subs)
  = map Submission.id
      (uniqueById Submission.id
         (flat_map
            (fun sub => searchSubreddit getSubreddit subredditSearch sub
                          (firstn 3 coins))
            (firstn 2 subs)
          ++ hotPosts getSubreddit getHot)).
Proof.
  unfold fetchReddit. rewrite map_map. reflexivity.
Qed.

(** X16. The posts [fetchTweets] returns are Twitter posts with pairwise distinct
    ids, and every tweet that either search delivered is represented by a
    post of its id. *)
Theorem fetchTweets_distinct_and_complete (coins terms tags : list string) :
  let posts := fetchTweets nowISO twitterSearch coins terms tags in
  NoDup (map Post.id posts) /\
  Forall (fun p => Post.platform p = twitter) posts /\
  forall tweet,
    In tweet (twitterSearch (searchQuery 3 coins) 3) \/
    In tweet (twitterSearch (searchQuery 2 terms) 3) ->
    In (Tweet.id tweet) (map Post.id posts).
Proof.
  cbn zeta. rewrite fetchTweets_ids.
  destruct (uniqueById_spec Tweet.id
              (twitterSearch (searchQuery 3 coins) 3
               ++ twitterSearch (searchQuery 2 terms) 3))
    as (Hnd & Hcov & _).
  split; [exact Hnd|]. split.
  - unfold fetchTweets. apply Forall_map, Forall_forall. reflexivity.
  - intros tweet Hin. apply Hcov. apply in_or_app. exact Hin.
Qed.

(** X17. When two fetched tweets share an id, the post returned for that id is
    built from the one delivered last. *)
Theorem fetchTweets_keeps_last_duplicate (coins terms tags : list string)
    (post : Post.t) :
  In post (fetchTweets nowISO twitterSearch coins terms tags) ->
  exists tweet before after,
    post = convertTweetToSocialPost nowISO tweet /\
    (twitterSearch (searchQuery 3 coins) 3
     ++ twitterSearch (searchQuery 2 terms) 3)%list
      = (before ++ tweet :: after)%list /\
    ~ In (Tweet.id tweet) (map Tweet.id after).
Proof.
  unfold fetchTweets. intros Hin.
  apply in_map_iff in Hin as (tweet & <- & Hu).
  destruct (uniqueById_spec Tweet.id
              (twitterSearch (searchQuery 3 coins) 3
               ++ twitterSearch (searchQuery 2 terms) 3))
    as (_ & _ & Hlast).
  destruct (Hlast tweet Hu) as (l1 & l2 & Heq & Hnin).
  exists tweet, l1, l2. repeat split; assumption.
Qed.

(** X18. The hot posts of r/CryptoMoonShots are represented in the result of
    [fetchReddit] whenever that subreddit and its hot list answer, whatever
    the searches of the other subreddits do, and the posts returned are
    Reddit posts with pairwise distinct ids. *)
Theorem fetchReddit_keeps_hot_posts (coins terms subs : list string)
    (hot : list Submission.t) :
  getSubreddit "CryptoMoonShots" = true ->
  getHot "CryptoMoonShots" = Some hot ->
  let posts :=
    fetchReddit toISOString trim getSubreddit subredditSearch getHot
      coins terms subs in
  NoDup (map Post.id posts) /\
  Forall (fun p => Post.platform p = reddit) posts /\
  forall p, In p hot -> In (Submission.id p) (map Post.id posts).
Proof.
  intros Hsub Hhot. cbn zeta. rewrite fetchReddit_ids.
  set (all := (flat_map _ _ ++ hotPosts getSubreddit getHot)%list).
  destruct (uniqueById_spec Submission.id all) as (Hnd & Hcov & _).
  split; [exact Hnd|]. split.
  - unfold fetchReddit. apply Forall_map, Forall_forall. reflexivity.
  - intros p Hp. apply Hcov. subst all. apply in_or_app. right.
    unfold hotPosts. now rewrite Hsub, Hhot.
Qed.

(** A search that throws ends the searches of its subreddit but loses
    nothing that was found before it: the results of a coin are represented
    whenever the subreddit answers and the searches of the coins before it
    succeeded. *)
Lemma searchCoins_prefix (sub : string) (done : list string) (coin : string)
    (rest : list string) (results : list Submission.t) :
  Forall (fun c => subredditSearch sub c <> None) done ->
  subredditSearch sub coin = Some results ->
  forall p, In p results ->
    In p (searchCoins subredditSearch sub (done ++ coin :: rest)).
Proof.
  induction done as [|c done IH]; intros Hdone Hres p Hp; cbn.
  - rewrite Hres. apply in_or_app. now left.
  - inversion Hdone as [|? ? Hc Hdone']; subst.
    destruct (subredditSearch sub c) as [r|]; [|contradiction].
    apply in_or_app. right. now apply IH.
Qed.

(** X20. The result of [fetaclTokenData] depends on its arguments only through
    the first three coins, the first two terms and the first two subreddits:
    names beyond these are never searched. *)
Theorem fetch_uses_only_leading_keywords
    (coins coins' terms terms' subs subs' : list string) :
  firstn 3 coins = firstn 3 coins' ->
  firstn 2 terms = firstn 2 terms' ->
  firstn 2 subs = firstn 2 subs' ->
  fetaclTokenData nowISO toISOString trim twitterSearch getSubreddit
    subredditSearch getHot coins terms subs
  = fetaclTokenData nowISO toISOString trim twitterSearch getSubreddit
      subredditSearch getHot coins' terms' subs'.
Proof.
  intros Hc Ht Hs.
  unfold fetaclTokenData, fetchTweets, fetchReddit, searchQuery.
  now rewrite Hc, Ht, Hs.
Qed.

(** X21. [fetchAllSocialData] returns at most 15 posts: at most 5 Twitter posts
    followed by at most 10 Reddit posts. *)
Theorem fetchAllSocialData_bounded :
  let posts :=
    fetchAllSocialData nowISO toISOString trim twitterSearch getSubreddit
      subredditSearch getHot in
  (List.length posts <= 15)%nat /\
  exists tweets redditPosts,
    posts = (tweets ++ redditPosts)%list /\
    (List.length tweets <= 5)%nat /\ (List.length redditPosts <= 10)%nat /\
    Forall (fun p => Post.platform p = twitter) tweets /\
    Forall (fun p => Post.platform p = reddit) redditPosts.
Proof.
  cbn zeta. unfold fetchAllSocialData.
  set (tweets := fetchTweets _ _ _ _ _).
  set (redditPosts := fetchReddit _ _ _ _ _ _ _ _).
  pose proof (firstn_le_length 5 tweets) as H5.
  pose proof (firstn_le_length 10 redditPosts) as H10.
  split; [rewrite List.length_app; lia|].
  exists (firstn 5 tweets), (firstn 10 redditPosts).
  split; [reflexivity|]. split; [exact H5|]. split; [exact H10|].
  split; apply Forall_firstn.
  - subst tweets. unfold fetchTweets. apply Forall_map, Forall_forall. reflexivity.
  - subst redditPosts. unfold fetchReddit.
    apply Forall_map, Forall_forall. reflexivity.
Qed.

End FetchProps.

Example fetchTweets_sample :
  fetchTweets FetchSample.nowISO FetchSample.twitterSearch
    memeCoins cryptoTerms trendingHashtags
  = [convertTweetToSocialPost FetchSample.nowISO FetchSample.tweet1again;
     convertTweetToSocialPost FetchSample.nowISO FetchSample.tweet2].
Proof. reflexivity. Qed.

Lemma fetchTweets_keeps_last_duplicate_witness :
  In (convertTweetToSocialPost FetchSample.nowISO FetchSample.tweet1again)
     (fetchTweets FetchSample.nowISO FetchSample.twitterSearch
        memeCoins cryptoTerms trendingHashtags) /\
  exists tweet before after,
    convertTweetToSocialPost FetchSample.nowISO FetchSample.tweet1again
      = convertTweetToSocialPost FetchSample.nowISO tweet /\
    (FetchSample.twitterSearch (searchQuery 3 memeCoins) 3
     ++ FetchSample.twitterSearch (searchQuery 2 cryptoTerms) 3)%list
      = (before ++ tweet :: after)%list /\
    ~ In (Tweet.id tweet) (map Tweet.id after).
Proof.
  split; [left; reflexivity|].
  apply (fetchTweets_keeps_last_duplicate FetchSample.nowISO
           FetchSample.twitterSearch memeCoins cryptoTerms trendingHashtags
           (convertTweetToSocialPost FetchSample.nowISO FetchSample.tweet1again)).
  left; reflexivity.
Defined.

Lemma fetchReddit_keeps_hot_posts_witness :
  FetchSample.getSubreddit "CryptoMoonShots" = true /\
  FetchSample.getHot "CryptoMoonShots" = Some [FetchSample.hot1] /\
  let posts :=
    fetchReddit FetchSample.toISOString FetchSample.trim FetchSample.getSubreddit
      FetchSample.subredditSearch FetchSample.getHot
      memeCoins cryptoTerms subreddits in
  NoDup (map Post.id posts) /\
  Forall (fun p => Post.platform p = reddit) posts /\
  forall p, In p [FetchSample.hot1] -> In (Submission.id p) (map Post.id posts).
Proof.
  split; [reflexivity|]. split; [reflexivity|].
  apply (fetchReddit_keeps_hot_posts FetchSample.toISOString FetchSample.trim
           FetchSample.getSubreddit FetchSample.subredditSearch FetchSample.getHot
           memeCoins cryptoTerms subreddits [FetchSample.hot1]); reflexivity.
Defined.

Lemma fetch_uses_only_leading_keywords_witness :
  firstn 3 memeCoins = firstn 3 ["dogecoin"; "DOGE"; "shiba inu"; "WIF"] /\
  firstn 2 cryptoTerms = firstn 2 ["meme coin"; "memecoin"] /\
  firstn 2 subreddits = firstn 2 ["CryptoCurrency"; "Bitcoin"; "defi"] /\
  fetaclTokenData FetchSample.nowISO FetchSample.toISOString FetchSample.trim
    FetchSample.twitterSearch FetchSample.getSubreddit
    FetchSample.subredditSearch FetchSample.getHot
    memeCoins cryptoTerms subreddits
  = fetaclTokenData FetchSample.nowISO FetchSample.toISOString FetchSample.trim
      FetchSample.twitterSearch FetchSample.getSubreddit
      FetchSample.subredditSearch FetchSample.getHot
      ["dogecoin"; "DOGE"; "shiba inu"; "WIF"] ["meme coin"; "memecoin"]
      ["CryptoCurrency"; "Bitcoin"; "defi"].
Proof.
  split; [reflexivity|]. split; [reflexivity|]. split; [reflexivity|].
  apply (fetch_uses_only_leading_keywords FetchSample.nowISO
           FetchSample.toISOString FetchSample.trim FetchSample.twitterSearch
           FetchSample.getSubreddit FetchSample.subredditSearch
           FetchSample.getHot); reflexivity.
Defined.

Section FetchIsolation.

Variable toISOString : Q -> string.
Variable trim : string -> string.
Variable getSubreddit : string -> bool.
Variable subredditSearch : string -> string -> option (list Submission.t).
Variable getHot : string -> option (list Submission.t).

(** X19. A search that throws ends the searches of its subreddit only, and loses
    nothing found before it: the results of a coin in one of the first two
    subreddits are represented in the result of [fetchReddit] whenever the
    subreddit answers and the searches of the coins before it succeeded,
    whatever happens to later coins, to the other subreddit and to the hot
    list. *)
Theorem fetchReddit_keeps_results_before_failure
    (coins terms subs : list string) (sub coin : string)
    (done rest : list string) (results : list Submission.t) :
  In sub (firstn 2 subs) ->
  getSubreddit sub = true ->
  firstn 3 coins = (done ++ coin :: rest)%list ->
  Forall (fun c => subredditSearch sub c <> None) done ->
  subredditSearch sub coin = Some results ->
  forall p, In p results ->
    In (Submission.id p)
       (map Post.id
          (fetchReddit toISOString trim getSubreddit subredditSearch getHot
             coins terms subs)).
Proof.
  intros Hsub Hok Hcoins Hdone Hres p Hp.
  rewrite fetchReddit_ids.
  apply (proj1 (proj2 (uniqueById_spec Submission.id _))).
  apply in_or_app. left. apply in_flat_map. exists sub. split; [exact Hsub|].
  unfold searchSubreddit. rewrite Hok, Hcoins.
  eapply searchCoins_prefix; eassumption.
Qed.

End FetchIsolation.

Lemma fetchReddit_keeps_results_before_failure_witness :
  In "CryptoCurrency" (firstn 2 subreddits) /\
  IsolationSample.getSubreddit "CryptoCurrency" = true /\
  firstn 3 memeCoins = ([] ++ "dogecoin" :: ["DOGE"; "shiba inu"])%list /\
  Forall (fun c => IsolationSample.subredditSearch "CryptoCurrency" c <> None) [] /\
  IsolationSample.subredditSearch "CryptoCurrency" "dogecoin"
    = Some [IsolationSample.post1] /\
  forall p, In p [IsolationSample.post1] ->
    In (Submission.id p)
       (map Post.id
          (fetchReddit FetchSample.toISOString FetchSample.trim
             IsolationSample.getSubreddit IsolationSample.subredditSearch
             IsolationSample.getHot memeCoins cryptoTerms subreddits)).
Proof.
  split; [left; reflexivity|]. split; [reflexivity|]. split; [reflexivity|].
  split; [constructor|]. split; [reflexivity|].
  apply (fetchReddit_keeps_results_before_failure FetchSample.toISOString
           FetchSample.trim IsolationSample.getSubreddit
           IsolationSample.subredditSearch IsolationSample.getHot
           memeCoins cryptoTerms subreddits "CryptoCurrency" "dogecoin"
           [] ["DOGE"; "shiba inu"] [IsolationSample.post1]);
    [left; reflexivity | reflexivity | reflexivity | constructor | reflexivity].
Defined.

(** * Properties of the personal assistant agent *)

Lemma upsert_length_absent {V} (k : string) (v : V) (m : list (string * V)) :
  lookup k m = None -> List.length (upsert k v m) = S (List.length m).
Proof.
  induction m as [|[k' v'] m IH]; cbn; [reflexivity|].
  destruct (String.eqb k k'); [discriminate|].
  intros H. cbn. now rewrite IH.
Qed.

Lemma upsert_length_present {V} (k : string) (v v0 : V) (m : list (string * V)) :
  lookup k m = Some v0 -> List.length (upsert k v m) = List.length m.
Proof.
  intros H.
  rewrite <- (List.length_map fst), (keys_upsert_present k v v0 m H).
  apply List.length_map.
Qed.

Lemma lookup_absent_keys {V} (k : string) (m : list (string * V)) :
  lookup k m = None <-> ~ In k (map fst m).
Proof.
  induction m as [|[k' v'] m IH]; cbn; [tauto|].
  destruct (String.eqb_spec k k') as [->|Hne].
  - split; [discriminate | intros H; exfalso; apply H; now left].
  - rewrite IH. split; [intros H [E|E]; [now apply Hne | now apply H] | tauto].
Qed.

Lemma handlers_keep_log (payload : Agent.A2AMessagePayload) (now : Z)
    (s : Agent.State) :
  Agent.activityLog (Agent.processMessage payload now s)
  = if (100 <? List.length (payload :: Agent.activityLog s))%nat
    then firstn 100 (payload :: Agent.activityLog s)
    else payload :: Agent.activityLog s.
Proof.
  unfold Agent.processMessage.
  destruct (Agent.data payload); try reflexivity.
  - unfold Agent.handleYieldReport. cbn [Agent.aggregatedData].
    now destruct (lookup _ _).
  - unfold Agent.handleRiskReport. cbn [Agent.aggregatedData].
    now destruct (lookup _ _).
Qed.

(** X22. After any message, the activity log holds that message first, then the
    earlier ones, and never more than 100 entries: it is the 100 newest
    messages. *)
Theorem activityLog_keeps_newest_100 (payload : Agent.A2AMessagePayload)
    (now : Z) (s : Agent.State) :
  let s' := Agent.processMessage payload now s in
  Agent.activityLog s' = firstn 100 (payload :: Agent.activityLog s) /\
  (List.length (Agent.activityLog s') <= 100)%nat /\
  hd_error (Agent.activityLog s') = Some payload.
Proof.
  cbn zeta. rewrite handlers_keep_log.
  assert (Heq : (if (100 <? List.length (payload :: Agent.activityLog s))%nat
                 then firstn 100 (payload :: Agent.activityLog s)
                 else payload :: Agent.activityLog s)
                = firstn 100 (payload :: Agent.activityLog s)).
  { destruct (Nat.ltb_spec 100 (List.length (payload :: Agent.activityLog s)))
      as [_|Hle]; [reflexivity|].
    symmetry. now apply firstn_all2. }
  rewrite Heq. split; [reflexivity|]. split; [apply firstn_le_length|].
  reflexivity.
Qed.

(** X23. No message removes or reorders a tracked token: the addresses tracked
    after a message are those tracked before, in the same order, followed by
    at most one new address. *)
Theorem messages_never_untrack (payload : Agent.A2AMessagePayload) (now : Z)
    (s : Agent.State) :
  exists added,
    map fst (Agent.aggregatedData (Agent.processMessage payload now s))
      = (map fst (Agent.aggregatedData s) ++ added)%list /\
    (List.length added <= 1)%nat.
Proof.
  assert (Hup : forall k v (m : list (string * Agent.AggregatedTokenData)),
             exists added,
               map fst (upsert k v m) = (map fst m ++ added)%list /\
               (List.length added <= 1)%nat).
  { intros k v m. rewrite upsert_keys.
    destruct (in_dec string_dec k (map fst m)).
    - exists []. rewrite app_nil_r. split; [reflexivity | cbn; lia].
    - exists [k]. split; [reflexivity | cbn; lia]. }
  assert (Hsame : exists added : list string,
             map fst (Agent.aggregatedData s)
               = (map fst (Agent.aggregatedData s) ++ added)%list /\
             (List.length added <= 1)%nat).
  { exists []. rewrite app_nil_r. split; [reflexivity | cbn; lia]. }
  unfold Agent.processMessage.
  destruct (Agent.data payload); cbn [Agent.aggregatedData]; try exact Hsame.
  - apply Hup.
  - unfold Agent.handleYieldReport. cbn [Agent.aggregatedData].
    destruct (lookup _ _); [apply Hup | exact Hsame].
  - unfold Agent.handleRiskReport. cbn [Agent.aggregatedData].
    destruct (lookup _ _); [apply Hup | exact Hsame].
  - apply Hup.
Qed.

(** X24. A yield or risk report for an address that is not tracked is dropped:
    the tracked data is unchanged and the address stays untracked. *)
Theorem reports_for_untracked_token_are_dropped
    (y : Agent.LiquidityData) (r : Agent.RiskData)
    (agent ctx : string) (sent now : Z) (s : Agent.State) :
  Agent.getTokenAnalysis (Agent.yieldAddress y) s = None ->
  Agent.getTokenAnalysis (Agent.riskAddress r) s = None ->
  Agent.aggregatedData
    (Agent.processMessage (Agent.mkPayload (Agent.yield_report y) agent sent ctx) now s)
    = Agent.aggregatedData s /\
  Agent.aggregatedData
    (Agent.processMessage (Agent.mkPayload (Agent.risk_report r) agent sent ctx) now s)
    = Agent.aggregatedData s.
Proof.
  unfold Agent.getTokenAnalysis. intros Hy Hr.
  unfold Agent.processMessage, Agent.handleYieldReport, Agent.handleRiskReport.
  cbn [Agent.data Agent.aggregatedData]. now rewrite Hy, Hr.
Qed.

Lemma reports_for_untracked_token_are_dropped_witness :
  Agent.getTokenAnalysis (Agent.yieldAddress AgentSample.dogeYield)
    AgentSample.empty = None /\
  Agent.getTokenAnalysis (Agent.riskAddress AgentSample.dogeRisk)
    AgentSample.empty = None /\
  Agent.aggregatedData
    (Agent.processMessage
       (Agent.mkPayload (Agent.yield_report AgentSample.dogeYield) "yield" 5 "c")
       6 AgentSample.empty)
    = Agent.aggregatedData AgentSample.empty /\
  Agent.aggregatedData
    (Agent.processMessage
       (Agent.mkPayload (Agent.risk_report AgentSample.dogeRisk) "yield" 5 "c")
       6 AgentSample.empty)
    = Agent.aggregatedData AgentSample.empty.
Proof.
  split; [reflexivity|]. split; [reflexivity|].
  apply (reports_for_untracked_token_are_dropped AgentSample.dogeYield
           AgentSample.dogeRisk "yield" "c" 5 6 AgentSample.empty);
    reflexivity.
Defined.

(** X25. An alert for an address that is not tracked starts tracking it: one
    entry is added, with a placeholder discovery named after the symbol of
    the alert (or the address when the alert has none), the alert itself,
    and the yield and risk data the alert carries. *)
Theorem alert_for_untracked_token_starts_tracking
    (a : Agent.AlertSignal) (agent ctx : string) (sent now : Z)
    (s : Agent.State) :
  Agent.getTokenAnalysis (Agent.alertAddress a) s = None ->
  let s' :=
    Agent.processMessage (Agent.mkPayload (Agent.alert_decision a) agent sent ctx)
      now s in
  Agent.getTrackedTokensCount s' = S (Agent.getTrackedTokensCount s) /\
  Agent.getTokenAnalysis (Agent.alertAddress a) s'
  = Some (Agent.mkAggregated
            (Agent.mkMemecoin (Agent.alertAddress a)
               (JS.or_str (Agent.alertSymbol a) (Agent.alertAddress a))
               (JS.or_str (Agent.alertSymbol a) (Agent.alertAddress a))
               "unknown" (Some now) None)
            (Agent.yieldData a) (Agent.riskData a) (Some a) now).
Proof.
  unfold Agent.getTokenAnalysis, Agent.getTrackedTokensCount. intros Hnone.
  cbn zeta. unfold Agent.processMessage, Agent.handleAlertDecision.
  cbn [Agent.data Agent.aggregatedData Agent.set_aggregatedData].
  rewrite Hnone. split.
  - now apply upsert_length_absent.
  - rewrite lookup_upsert_same. cbn.
    now destruct (Agent.yieldData a), (Agent.riskData a).
Qed.

Lemma alert_for_untracked_token_starts_tracking_witness :
  Agent.getTokenAnalysis (Agent.alertAddress AgentSample.dogeAlert)
    AgentSample.empty = None /\
  let s' :=
    Agent.processMessage
      (Agent.mkPayload (Agent.alert_decision AgentSample.dogeAlert) "alerts" 5 "c")
      6 AgentSample.empty in
  Agent.getTrackedTokensCount s' = S (Agent.getTrackedTokensCount AgentSample.empty) /\
  Agent.getTokenAnalysis (Agent.alertAddress AgentSample.dogeAlert) s'
  = Some (Agent.mkAggregated
            (Agent.mkMemecoin (Agent.alertAddress AgentSample.dogeAlert)
               (JS.or_str (Agent.alertSymbol AgentSample.dogeAlert)
                  (Agent.alertAddress AgentSample.dogeAlert))
               (JS.or_str (Agent.alertSymbol AgentSample.dogeAlert)
                  (Agent.alertAddress AgentSample.dogeAlert))
               "unknown" (Some 6%Z) None)
            (Agent.yieldData AgentSample.dogeAlert)
            (Agent.riskData AgentSample.dogeAlert)
            (Some AgentSample.dogeAlert) 6).
Proof.
  split; [reflexivity|].
  apply (alert_for_untracked_token_starts_tracking AgentSample.dogeAlert
           "alerts" "c" 5 6 AgentSample.empty); reflexivity.
Defined.

(** X26. A discovery message for a token that is already tracked discards what
    had been collected for it: the entry is replaced by one without yield,
    risk or alert data, and the number of tracked tokens stays the same. *)
Theorem rediscovery_discards_collected_data
    (d : Agent.MemecoinData) (agent ctx : string) (sent now : Z)
    (s : Agent.State) (old : Agent.AggregatedTokenData) :
  Agent.getTokenAnalysis (Agent.address d) s = Some old ->
  let s' :=
    Agent.processMessage (Agent.mkPayload (Agent.token_discovery d) agent sent ctx)
      now s in
  Agent.getTokenAnalysis (Agent.address d) s'
    = Some (Agent.mkAggregated d None None None now) /\
  Agent.getTrackedTokensCount s' = Agent.getTrackedTokensCount s.
Proof.
  unfold Agent.getTokenAnalysis, Agent.getTrackedTokensCount. intros Hold.
  cbn zeta. unfold Agent.processMessage, Agent.handleTokenDiscovery.
  cbn [Agent.data Agent.aggregatedData Agent.set_aggregatedData].
  split; [apply lookup_upsert_same|].
  eapply upsert_length_present; eassumption.
Qed.

Lemma rediscovery_discards_collected_data_witness :
  Agent.getTokenAnalysis (Agent.address AgentSample.doge) AgentSample.tracking
    = Some (Agent.mkAggregated AgentSample.doge (Some AgentSample.dogeYield)
              None None 2000) /\
  let s' :=
    Agent.processMessage
      (Agent.mkPayload (Agent.token_discovery AgentSample.doge) "scout" 5 "c")
      3000 AgentSample.tracking in
  Agent.getTokenAnalysis (Agent.address AgentSample.doge) s'
    = Some (Agent.mkAggregated AgentSample.doge None None None 3000) /\
  Agent.getTrackedTokensCount s' = Agent.getTrackedTokensCount AgentSample.tracking.
Proof.
  split; [reflexivity|].
  apply (rediscovery_discards_collected_data AgentSample.doge "scout" "c" 5 3000
           AgentSample.tracking
           (Agent.mkAggregated AgentSample.doge (Some AgentSample.dogeYield)
              None None 2000)); reflexivity.
Defined.

(** X27. A discovery followed by a yield report and a risk report for the same
    address, from any state, leaves that token with exactly the discovery,
    yield and risk data received and no alert. *)
Theorem discovery_yield_risk_round_trip
    (d : Agent.MemecoinData) (y : Agent.LiquidityData) (r : Agent.RiskData)
    (agent ctx : string) (sent t1 t2 t3 : Z) (s : Agent.State) :
  Agent.yieldAddress y = Agent.address d ->
  Agent.riskAddress r = Agent.address d ->
  Agent.getTokenAnalysis (Agent.address d)
    (Agent.processMessage (Agent.mkPayload (Agent.risk_report r) agent sent ctx) t3
       (Agent.processMessage (Agent.mkPayload (Agent.yield_report y) agent sent ctx) t2
          (Agent.processMessage
             (Agent.mkPayload (Agent.token_discovery d) agent sent ctx) t1 s)))
  = Some (Agent.mkAggregated d (Some y) (Some r) None t3).
Proof.
  intros Hy Hr.
  unfold Agent.getTokenAnalysis, Agent.processMessage,
    Agent.handleTokenDiscovery, Agent.handleYieldReport, Agent.handleRiskReport.
  cbn [Agent.data Agent.aggregatedData Agent.set_aggregatedData].
  rewrite Hy. rewrite lookup_upsert_same.
  cbn [Agent.aggregatedData Agent.set_aggregatedData].
  rewrite Hr. rewrite lookup_upsert_same.
  cbn [Agent.aggregatedData Agent.set_aggregatedData].
  apply lookup_upsert_same.
Qed.

Lemma discovery_yield_risk_round_trip_witness :
  Agent.yieldAddress AgentSample.dogeYield = Agent.address AgentSample.doge /\
  Agent.riskAddress AgentSample.dogeRisk = Agent.address AgentSample.doge /\
  Agent.getTokenAnalysis (Agent.address AgentSample.doge)
    (Agent.processMessage
       (Agent.mkPayload (Agent.risk_report AgentSample.dogeRisk) "a" 5 "c") 30
       (Agent.processMessage
          (Agent.mkPayload (Agent.yield_report AgentSample.dogeYield) "a" 5 "c") 20
          (Agent.processMessage
             (Agent.mkPayload (Agent.token_discovery AgentSample.doge) "a" 5 "c")
             10 AgentSample.empty)))
  = Some (Agent.mkAggregated AgentSample.doge (Some AgentSample.dogeYield)
            (Some AgentSample.dogeRisk) None 30).
Proof.
  split; [reflexivity|]. split; [reflexivity|].
  apply (discovery_yield_risk_round_trip AgentSample.doge AgentSample.dogeYield
           AgentSample.dogeRisk "a" "c" 5 10 20 30 AgentSample.empty);
    reflexivity.
Defined.

(** ** Charts *)

Lemma incr_spec (i : nat) (counts : list nat) :
  (i < List.length counts)%nat ->
  List.length (Agent.incr i counts) = List.length counts /\
  list_sum (Agent.incr i counts) = S (list_sum counts).
Proof.
  revert i. induction counts as [|c counts IH]; intros i Hi; cbn in Hi; [lia|].
  destruct i as [|i]; [cbn; split; reflexivity|].
  destruct (IH i) as [Hl Hs]; [lia|].
  cbn [Agent.incr List.length]. rewrite Hl. split; [reflexivity|].
  change (c + list_sum (Agent.incr i counts) = S (c + list_sum counts))%nat.
  rewrite Hs. lia.
Qed.

Lemma apyBucket_lt (a : Q) : (Agent.apyBucket a < 5)%nat.
Proof.
  unfold Agent.apyBucket.
  repeat (destruct (Qle_bool a _)); lia.
Qed.

(** X29. The APY distribution chart has five buckets, and every token with yield
    data is counted in exactly one of them: the counts add up to the number
    of tokens that have yield data. *)
Theorem apy_distribution_counts_each_token_once
    (tokenData : list Agent.AggregatedTokenData) :
  List.length (Agent.apyDistribution tokenData) = 5%nat /\
  list_sum (Agent.apyDistribution tokenData)
  = List.length
      (filter (fun t => match Agent.yield t with Some _ => true | None => false end)
         tokenData).
Proof.
  unfold Agent.apyDistribution.
  set (step := fun counts token => _).
  assert (Hgen : forall l counts,
             List.length counts = 5%nat ->
             List.length (fold_left step l counts) = 5%nat /\
             list_sum (fold_left step l counts)
             = (list_sum counts
                + List.length
                    (filter (fun t => match Agent.yield t with
                                      | Some _ => true | None => false end) l))%nat).
  { induction l as [|t l IH]; intros counts Hlen; cbn [fold_left filter].
    - split; [exact Hlen | cbn; lia].
    - unfold step at 2 4. destruct (Agent.yield t) as [y|].
      + destruct (incr_spec (Agent.apyBucket (Agent.apy y)) counts) as [Hl Hs];
          [rewrite Hlen; apply apyBucket_lt|].
        destruct (IH (Agent.incr (Agent.apyBucket (Agent.apy y)) counts))
          as [IHl IHs]; [now rewrite Hl|].
        split; [exact IHl|]. rewrite IHs, Hs. cbn [List.length]. lia.
      + now apply IH. }
  destruct (Hgen tokenData [0; 0; 0; 0; 0]%nat eq_refl) as [Hl Hs].
  split; [exact Hl | exact Hs].
Qed.

Lemma bump_numeric (i : nat) (counts : list nat) :
  (i < List.length counts)%nat ->
  Timeline.bump i (map Timeline.Num counts)
  = map Timeline.Num (Agent.incr i counts).
Proof.
  revert i. induction counts as [|c counts IH]; intros i Hi; cbn in Hi; [lia|].
  destruct i as [|i]; cbn; [reflexivity|].
  rewrite IH by lia. reflexivity.
Qed.

(** X30. When no token carries a discovery time later than the current time, the
    timeline chart consists of 24 numeric slots whose counts add up to the
    number of tokens discovered, at a known time, less than 24 hours ago. *)
Theorem timeline_counts_last_day
    (now : Z) (tokenData : list Agent.AggregatedTokenData) :
  (forall t d, In t tokenData ->
     Agent.discoveredAt (Agent.discovery t) = Some d -> (d <= now)%Z) ->
  exists counts,
    Timeline.hourlyData now tokenData = map Timeline.Num counts /\
    List.length counts = 24%nat /\
    list_sum counts = List.length (filter (Timeline.inLastDay now) tokenData).
Proof.
  intros Hpast. unfold Timeline.hourlyData.
  set (step := fun arr token => _).
  assert (Hgen : forall l counts,
             (forall t d, In t l ->
                Agent.discoveredAt (Agent.discovery t) = Some d -> (d <= now)%Z) ->
             List.length counts = 24%nat ->
             exists counts',
               fold_left step l (map Timeline.Num counts)
                 = map Timeline.Num counts' /\
               List.length counts' = 24%nat /\
               list_sum counts'
               = (list_sum counts
                  + List.length (filter (Timeline.inLastDay now) l))%nat).
  { induction l as [|t l IH]; intros counts Hl Hlen; cbn [fold_left filter].
    - exists counts. split; [reflexivity|]. split; [exact Hlen | cbn; lia].
    - assert (Hl' : forall t' d, In t' l ->
                Agent.discoveredAt (Agent.discovery t') = Some d -> (d <= now)%Z)
        by (intros t' d Hin; apply Hl; now right).
      unfold step at 2, Timeline.inLastDay at 1.
      destruct (Agent.discoveredAt (Agent.discovery t)) as [d|] eqn:Hd;
        [|cbn [List.length]; now apply IH].
      destruct (Z.eqb_spec d 0) as [Hz|Hz];
        [cbn [negb andb List.length]; now apply IH|].
      cbn [negb andb].
      destruct (Z.ltb_spec ((now - d) / 3600000) 24) as [Hlt|Hge];
        [|cbn [List.length]; now apply IH].
      assert (Hle : (d <= now)%Z) by (apply (Hl t d); [now left | exact Hd]).
      assert (Hnn : (0 <= (now - d) / 3600000)%Z)
        by (apply Z.div_pos; lia).
      assert (Hidx : (Z.to_nat (23 - (now - d) / 3600000) < List.length counts)%nat)
        by (rewrite Hlen; lia).
      rewrite (bump_numeric _ _ Hidx).
      destruct (incr_spec _ _ Hidx) as [Hl2 Hs2].
      destruct (IH (Agent.incr (Z.to_nat (23 - (now - d) / 3600000)) counts) Hl')
        as (counts' & Heq & Hlen' & Hsum'); [now rewrite Hl2|].
      exists counts'. split; [exact Heq|]. split; [exact Hlen'|].
      rewrite Hsum', Hs2. cbn [List.length]. lia. }
  destruct (Hgen tokenData (repeat 0%nat 24) Hpast eq_refl)
    as (counts & Heq & Hlen & Hsum).
  exists counts. split; [exact Heq|]. split; [exact Hlen | exact Hsum].
Qed.

Lemma timeline_counts_last_day_witness :
  (forall t d, In t [StatsSample.bare; StatsSample.full] ->
     Agent.discoveredAt (Agent.discovery t) = Some d -> (d <= 5000)%Z) /\
  exists counts,
    Timeline.hourlyData 5000 [StatsSample.bare; StatsSample.full]
      = map Timeline.Num counts /\
    List.length counts = 24%nat /\
    list_sum counts
    = List.length (filter (Timeline.inLastDay 5000)
                     [StatsSample.bare; StatsSample.full]).
Proof.
  assert (Hpast : forall t d, In t [StatsSample.bare; StatsSample.full] ->
            Agent.discoveredAt (Agent.discovery t) = Some d -> (d <= 5000)%Z).
  { intros t d [<-|[<-|[]]] Hd; inversion Hd; subst; discriminate. }
  split; [exact Hpast|].
  apply (timeline_counts_last_day 5000 [StatsSample.bare; StatsSample.full] Hpast).
Defined.

(** * Properties of the score computations on binary64 numbers *)

Import Floats.
Set Warnings "-inexact-float".

Example ieee_round_samples :
  IEEE.Math_round 23.499999999999996%float = 23%float /\
  IEEE.Math_round 2.5%float = 3%float /\
  IEEE.Math_round (-2.5)%float = (-2)%float /\
  IEEE.Math_round 0.49999999999999994%float = 0%float /\
  IEEE.toJSON 76%float = Some 76 /\
  IEEE.toJSON 28.5%float = Some (57 # 2) /\
  IEEE.ofJSON 28.5 = 28.5%float /\
  IEEE.ofJSON 0.3 = 0.3%float.
Proof. repeat split; vm_compute; reflexivity. Qed.

(** ** Arithmetic of doubles *)

Lemma float_mul_comm (x y : float) : (x * y)%float = (y * x)%float.
Proof.
  apply Prim2SF_inj. rewrite !mul_spec.
  destruct (Prim2SF x) as [sx|sx| |sx mx ex], (Prim2SF y) as [sy|sy| |sy my ey];
    cbn [SF64mul SFmul]; unfold SF64mul, SFmul; try reflexivity;
    try (now rewrite xorb_comm).
  rewrite xorb_comm, Pos.mul_comm, Z.add_comm. reflexivity.
Qed.

Lemma float_mul_nan (x : float) : (x * nan)%float = nan.
Proof.
  apply Prim2SF_inj. rewrite mul_spec.
  change (Prim2SF nan) with S754_nan.
  destruct (Prim2SF x); reflexivity.
Qed.

(** ** The social score *)

Lemma existsb_eqb_false (key : string) (names : list string) :
  ~ In key names -> existsb (String.eqb key) names = false.
Proof.
  intros H. destruct (existsb (String.eqb key) names) eqn:E; [|reflexivity].
  apply existsb_exists in E. destruct E as [x [Hx Heq]].
  apply String.eqb_eq in Heq. subst x. contradiction.
Qed.

(** The penalty of a label that names no inherited member: the entry of the
    table, 0.8 without one. *)
Lemma ieee_riskPenalty_lookup (label : string) :
  ~ In label IEEE.Object_prototype_names ->
  IEEE.or_else (IEEE.getProperty IEEE.riskPenaltyTable label) 0.8%float
  = IEEE.Num (IEEE.Spec.riskPenalty label).
Proof.
  intros H. unfold IEEE.getProperty, IEEE.riskPenaltyTable, IEEE.Spec.riskPenalty.
  cbn [lookup].
  destruct (String.eqb label "low"); [reflexivity|].
  destruct (String.eqb label "medium"); [reflexivity|].
  destruct (String.eqb label "high"); [reflexivity|].
  destruct (String.eqb label "extreme"); [reflexivity|].
  rewrite (existsb_eqb_false _ _ H). reflexivity.
Qed.

(** The penalty of a label that names an inherited member is that member, a
    function or an object. *)
Lemma ieee_riskPenalty_inherited (label : string) :
  In label IEEE.Object_prototype_names ->
  IEEE.or_else (IEEE.getProperty IEEE.riskPenaltyTable label) 0.8%float
  = IEEE.Inherited.
Proof.
  intros H. cbn in H.
  repeat (destruct H as [<-|H]; [reflexivity|]). contradiction.
Qed.

Example ieee_calculateSocialScore_sample :
  IEEE.calculateSocialScore IEEE.Sample.bullish = 40%float.
Proof. vm_compute. reflexivity. Qed.

(** C1. Under the label 'constructor', which is none of the four recognised
    labels, the penalty is not 0.8 but the member the table inherits under
    that name: the score is NaN, where the formula with penalty 0.8 gives
    63. *)
Theorem calculateSocialScore_inherited_label_nan :
  IEEE.riskLevel IEEE.Sample.inheritedLabel = Some "constructor" /\
  IEEE.calculateSocialScore IEEE.Sample.inheritedLabel = nan /\
  IEEE.Spec.socialScore 80 0.6 250 420 0.9 "constructor" = 63%float.
Proof. repeat split; vm_compute; reflexivity. Qed.

(** X31. For every social analysis whose risk label names no member that
    objects inherit (constructor, toString, valueOf, hasOwnProperty, ...),
    the computed social score is
    clamp(0, 100, round(riskPenalty * (trendingScore*0.3 +
    (sentimentScore+1)*50*0.25 + min(mentionCount,100)*0.2 +
    min(avgEngagement/10,100)*0.15 + confidence*100*0.1))), every operation
    being that of binary64 arithmetic in the order written and round the
    rounding to the nearest integer with ties towards +infinity; the penalty
    is 1.0, 0.8, 0.5, 0.2 for low, medium, high, extreme and 0.8 for any
    other such label. *)
Theorem calculateSocialScore_formula
    (tokenName : string) (ticker : option string) (sentiment : string)
    (sentimentScore trendingScore mentionCount avgEngagement confidence : float)
    (label recommendation reasoning : string) :
  ~ In label IEEE.Object_prototype_names ->
  IEEE.calculateSocialScore
    (IEEE.mkAnalyzedToken tokenName ticker sentiment (Some sentimentScore)
       (Some trendingScore) (Some mentionCount) (Some avgEngagement)
       (Some confidence) (Some label) recommendation reasoning)
  = IEEE.Spec.socialScore trendingScore sentimentScore mentionCount
      avgEngagement confidence label.
Proof.
  intros H.
  unfold IEEE.calculateSocialScore, IEEE.Spec.socialScore, IEEE.Spec.clamp.
  cbn [IEEE.sentimentScore IEEE.trendingScore IEEE.mentionCount
       IEEE.avgEngagement IEEE.confidence IEEE.riskLevel JS.default].
  rewrite (ieee_riskPenalty_lookup label H). cbn [IEEE.toNumber].
  rewrite float_mul_comm. reflexivity.
Qed.

Lemma calculateSocialScore_formula_witness :
  ~ In "moderate" IEEE.Object_prototype_names /\
  IEEE.calculateSocialScore
    (IEEE.mkAnalyzedToken "Pepe" (Some "PEPE") "bullish" (Some 0.6%float)
       (Some 80%float) (Some 250%float) (Some 420%float) (Some 0.9%float)
       (Some "moderate") "buy" "Strong momentum")
  = IEEE.Spec.socialScore 80 0.6 250 420 0.9 "moderate".
Proof.
  assert (H : ~ In "moderate" IEEE.Object_prototype_names).
  { intros H. cbn in H.
    repeat (destruct H as [H|H]; [discriminate H|]). exact H. }
  split; [exact H|].
  apply (calculateSocialScore_formula "Pepe" (Some "PEPE") "bullish" 0.6 80 250
           420 0.9 "moderate" "buy" "Strong momentum"); exact H.
Defined.

Example ieee_unrecognized_label :
  IEEE.Spec.socialScore 80 0.6 250 420 0.9 "moderate" = 63%float.
Proof. vm_compute. reflexivity. Qed.

(** The sum is the one computed on doubles: with trending score 36, one
    mention and low risk it is 23.499999999999996 and rounds to 23. *)
Example ieee_score_rounds_the_double_sum :
  IEEE.calculateSocialScore IEEE.Sample.halfway = 23%float /\
  IEEE.Spec.socialScore 36 0 1 0 0 "low" = 23%float.
Proof. split; vm_compute; reflexivity. Qed.

(** A signal the analysis lacks counts as 0 and a missing label as medium. *)
Lemma calculateSocialScore_missing_fields (t : IEEE.AnalyzedToken) :
  IEEE.calculateSocialScore t
  = IEEE.calculateSocialScore
      (IEEE.mkAnalyzedToken (IEEE.tokenName t) (IEEE.ticker t) (IEEE.sentiment t)
         (Some (match IEEE.sentimentScore t with Some x => x | None => 0%float end))
         (Some (match IEEE.trendingScore t with Some x => x | None => 0%float end))
         (Some (match IEEE.mentionCount t with Some x => x | None => 0%float end))
         (Some (match IEEE.avgEngagement t with Some x => x | None => 0%float end))
         (Some (match IEEE.confidence t with Some x => x | None => 0%float end))
         (Some (match IEEE.riskLevel t with Some l => l | None => "medium" end))
         (IEEE.recommendation t) (IEEE.reasoning t)).
Proof.
  destruct t as [n tk st [s|] [tr|] [m|] [e|] [c|] [l|] rc rs]; reflexivity.
Qed.

(** Under a label that names an inherited member the score is NaN, whatever
    the signals. *)
Lemma calculateSocialScore_inherited_label
    (t : IEEE.AnalyzedToken) (label : string) :
  IEEE.riskLevel t = Some label ->
  In label IEEE.Object_prototype_names ->
  IEEE.calculateSocialScore t = nan.
Proof.
  intros Hl Hin. unfold IEEE.calculateSocialScore.
  rewrite Hl. cbn [JS.default].
  rewrite (ieee_riskPenalty_inherited label Hin). cbn [IEEE.toNumber].
  rewrite float_mul_nan. reflexivity.
Qed.

(** Such a score is stored as [null], and so is the finalScore fused from
    it. *)
Example inherited_label_stored_null :
  option_map (fun r => (Token.socialScore r, Token.finalScore r))
    (lookup "0xA"
       (db (snd (IEEE.updateTokenSocialScore "0xA"
                   (IEEE.calculateSocialScore IEEE.Sample.inheritedLabel)
                   IEEE.Sample.inheritedLabel 1000 Sample.onePepe))))
  = Some (None, None).
Proof. vm_compute. reflexivity. Qed.

(** ** Writing a social score *)

Lemma ieee_update_present (address : string) (s : float) (a : IEEE.AnalyzedToken)
    (now : Z) (w : World) (tokenData : Token.t) :
  up w = true ->
  lookup address (db w) = Some tokenData ->
  IEEE.updateTokenSocialScore address s a now w =
    (Ok tt,
     let v :=
       IEEE.updatedData tokenData s
         (IEEE.Spec.fusion (IEEE.onChainScoreOf tokenData) s) a now in
     mkWorld (upsert address v (db w)) (up w) (sets w ++ [(address, v)])%list []
       (lastRankingUpdate w)).
Proof.
  destruct w as [d u st c l]; cbn [db up sets cachedRankings lastRankingUpdate].
  intros -> Hget.
  unfold IEEE.updateTokenSocialScore, try_catch, bind, client.get; cbn [db up].
  rewrite Hget. reflexivity.
Qed.





Example scenario_2 :
  lookup "0xA"
    (db (snd (IEEE.updateTokenSocialScore "0xA" 90 IEEE.Sample.bullish 1000
                Sample.onePepe)))
  = Some (Token.mk "0xA" (Some "Pepe") (Some "PEPE") (Some 66) (Some 76)
            (Some 90)
            (Some (SocialAnalysis.mk "bullish" (Some (5404319552844595 # 9007199254740992))
                     (Some 250) (Some "high") "buy"
                     (Some (8106479329266893 # 9007199254740992)) 1000))
            []).
Proof. vm_compute. reflexivity. Qed.

(** The sum is the one computed on doubles: on-chain score 28.5 and social
    score 1 give 17.499999999999996, stored as 17. *)
Example fusion_rounds_the_double_sum :
  lookup "0xB" (db IEEE.Sample.oneShiba) = Some IEEE.Sample.shiba /\
  Token.trendingscore IEEE.Sample.shiba = Some (57 # 2) /\
  option_map Token.finalScore
    (lookup "0xB"
       (db (snd (IEEE.updateTokenSocialScore "0xB" 1 IEEE.Sample.halfway 1000
                   IEEE.Sample.oneShiba))))
    = Some (Some 17).
Proof. repeat split; vm_compute; reflexivity. Qed.

(** ** Single write and invalidation *)

(** C3. A social-score update of a stored record on a reachable store issues
    exactly one SET, whose value carries both the new socialScore and the
    finalScore recomputed from it, leaves the cached ranking empty whatever
    it held before, and the next ranked read, whenever it comes, is rebuilt
    from the store as the update left it. *)
Theorem update_single_write_and_invalidate
    (address : string) (s : float) (a : IEEE.AnalyzedToken) (now : Z)
    (w : World) (tokenData : Token.t) :
  up w = true ->
  lookup address (db w) = Some tokenData ->
  let w' := snd (IEEE.updateTokenSocialScore address s a now w) in
  (exists v,
      sets w' = (sets w ++ [(address, v)])%list /\
      db w' = upsert address v (db w) /\
      Token.socialScore v = IEEE.toJSON s /\
      Token.finalScore v =
        IEEE.toJSON (IEEE.Spec.fusion (IEEE.onChainScoreOf tokenData) s))
  /\ cachedRankings w' = []
  /\ forall later, fst (getTokenAddressesSorted later w') = Ok (rebuild (db w')).
Proof.
  intros Hup Hget w'. subst w'.
  rewrite (ieee_update_present _ _ _ _ _ _ Hup Hget); cbn [snd].
  split; [|split].
  - eexists. cbn [sets db]. repeat split.
  - reflexivity.
  - intros later. rewrite ranked_read_miss; [reflexivity | | exact Hup].
    apply cacheFresh_false. now left.
Qed.

Lemma update_single_write_and_invalidate_witness :
  up IEEE.Sample.freshlyCached = true /\
  lookup "0xA" (db IEEE.Sample.freshlyCached) = Some Sample.pepe /\
  let w' :=
    snd (IEEE.updateTokenSocialScore "0xA" 90 IEEE.Sample.bullish 1000
           IEEE.Sample.freshlyCached) in
  (exists v,
      sets w' = (sets IEEE.Sample.freshlyCached ++ [("0xA", v)])%list /\
      db w' = upsert "0xA" v (db IEEE.Sample.freshlyCached) /\
      Token.socialScore v = IEEE.toJSON 90 /\
      Token.finalScore v =
        IEEE.toJSON (IEEE.Spec.fusion (IEEE.onChainScoreOf Sample.pepe) 90))
  /\ cachedRankings w' = []
  /\ forall later, fst (getTokenAddressesSorted later w') = Ok (rebuild (db w')).
Proof.
  split; [reflexivity|]. split; [reflexivity|].
  apply (update_single_write_and_invalidate "0xA" 90 IEEE.Sample.bullish 1000
           IEEE.Sample.freshlyCached Sample.pepe); reflexivity.
Defined.

(** The snapshot that was served before the update is not served after it. *)
Example update_replaces_served_snapshot :
  fst (getTokenAddressesSorted 1000 IEEE.Sample.freshlyCached)
    = Ok [toRanked Sample.tokC] /\
  fst (getTokenAddressesSorted 1000
         (snd (IEEE.updateTokenSocialScore "0xA" 90 IEEE.Sample.bullish 1000
                 IEEE.Sample.freshlyCached)))
    = Ok [Ranked.mk "0xA" "Pepe" "PEPE" 76].
Proof. split; vm_compute; reflexivity. Qed.

(** ** Reading back a written score *)

(** X3. After a social score is written for a stored record on a reachable
    store, [/token/:address] answers with the record just written: the new
    social score, the finalScore fused from it on doubles, and the on-chain
    fields of the old record. *)
Theorem token_route_reads_back_update
    (address : string) (s : float) (a : IEEE.AnalyzedToken) (now : Z)
    (w : World) (tokenData : Token.t) :
  up w = true ->
  lookup address (db w) = Some tokenData ->
  exists body,
    fst (token_route address
           (snd (IEEE.updateTokenSocialScore address s a now w)))
      = TokenJson body /\
    Token.socialScore body = IEEE.toJSON s /\
    Token.finalScore body =
      IEEE.toJSON (IEEE.Spec.fusion (IEEE.onChainScoreOf tokenData) s) /\
    sameOnChain tokenData body.
Proof.
  intros Hup Hget.
  rewrite (ieee_update_present _ _ _ _ _ _ Hup Hget); cbn [snd].
  unfold token_route, client.get; cbn [up db]. rewrite Hup.
  rewrite lookup_upsert_same. cbn [fst].
  eexists; split; [reflexivity|]. repeat split.
Qed.

Lemma token_route_reads_back_update_witness :
  up IEEE.Sample.oneShiba = true /\
  lookup "0xB" (db IEEE.Sample.oneShiba) = Some IEEE.Sample.shiba /\
  exists body,
    fst (token_route "0xB"
           (snd (IEEE.updateTokenSocialScore "0xB" 1 IEEE.Sample.halfway 1000
                   IEEE.Sample.oneShiba)))
      = TokenJson body /\
    Token.socialScore body = IEEE.toJSON 1 /\
    Token.finalScore body =
      IEEE.toJSON (IEEE.Spec.fusion (IEEE.onChainScoreOf IEEE.Sample.shiba) 1) /\
    sameOnChain IEEE.Sample.shiba body.
Proof.
  split; [reflexivity|]. split; [reflexivity|].
  apply (token_route_reads_back_update "0xB" 1 IEEE.Sample.halfway 1000
           IEEE.Sample.oneShiba IEEE.Sample.shiba); reflexivity.
Defined.

Example token_route_after_update :
  option_map Token.finalScore
    (match fst (token_route "0xB"
                  (snd (IEEE.updateTokenSocialScore "0xB" 1 IEEE.Sample.halfway
                          1000 IEEE.Sample.oneShiba))) with
     | TokenJson body => Some body
     | _ => None
     end) = Some (Some 17).
Proof. vm_compute. reflexivity. Qed.
(** ** The refresh cycle on doubles *)

Section IEEECycle.

Variable toLowerCase : string -> string.




Variable analyzeTrends : list string -> option (list IEEE.AnalyzedToken).



(** The map of analyses lists the results in reverse. *)
Lemma ieee_analysisMap_rev (l : list IEEE.AnalyzedToken) :
  IEEE.analysisMap toLowerCase l
  = rev (map (fun token =>
                (toLowerCase (JS.or_str (IEEE.ticker token) (IEEE.tokenName token)),
                 token)) l).
Proof.
  unfold IEEE.analysisMap.
  rewrite <- (app_nil_r (rev _)). generalize (@nil (string * IEEE.AnalyzedToken)).
  induction l as [|a l IH]; intros acc; [reflexivity|].
  cbn [fold_left map rev]. rewrite IH, <- app_assoc. reflexivity.
Qed.

End IEEECycle.

Lemma lookup_app_absent {V} (k : string) (m1 m2 : list (string * V)) :
  ~ In k (map fst m1) -> lookup k (m1 ++ m2) = lookup k m2.
Proof.
  induction m1 as [|[k1 v1] m1 IH]; intros Hnin; [reflexivity|].
  cbn [app lookup]. cbn in Hnin.
  destruct (String.eqb_spec k k1) as [->|Hne]; [tauto|].
  apply IH. tauto.
Qed.

(** ** Tokens without social results *)




Example absent_ticker_stored_record :
  lookup "0xA"
    (db (snd (IEEE.updateTokensByRankRange toLowerCase IEEE.Sample.noResults
                0 (Finite 20) 1000000 IEEE.Sample.recentlyRefreshed)))
  = Some (Token.mk "0xA" (Some "Pepe") (Some "PEPE") (Some 66) (Some 52)
            (Some 30) (Some (IEEE.neutralAnalysis 1000000)) []).
Proof. vm_compute. reflexivity. Qed.

(** ** Matching analyses to tokens *)

(** X15. When the collaborators list several analyses under the same
    lower-cased ticker, a token of that ticker is scored with the one listed
    last, whatever is listed after it under other tickers. *)
Theorem last_listed_analysis_wins
    (toLowerCase : string -> string)
    (before after : list IEEE.AnalyzedToken) (a : IEEE.AnalyzedToken)
    (now : Z) (t : Ranked.t) :
  toLowerCase (tickerOf t)
    = toLowerCase (JS.or_str (IEEE.ticker a) (IEEE.tokenName a)) ->
  ~ In (toLowerCase (tickerOf t))
       (map (fun b => toLowerCase (JS.or_str (IEEE.ticker b) (IEEE.tokenName b)))
            after) ->
  IEEE.refreshToken toLowerCase
    (IEEE.analysisMap toLowerCase (before ++ a :: after)) now t
  = IEEE.updateTokenSocialScore (Ranked.address t)
      (IEEE.calculateSocialScore a) a now.
Proof.
  intros Hkey Hlast. unfold IEEE.refreshToken. fold (tickerOf t).
  rewrite ieee_analysisMap_rev, map_app, rev_app_distr. cbn [map rev].
  rewrite <- app_assoc. rewrite lookup_app_absent.
  - cbn [app lookup]. rewrite Hkey, String.eqb_refl. reflexivity.
  - rewrite map_rev, map_map. cbn [fst]. rewrite <- in_rev. exact Hlast.
Qed.

Lemma last_listed_analysis_wins_witness :
  toLowerCase (tickerOf (toRanked Sample.pepe))
    = toLowerCase (JS.or_str (IEEE.ticker IEEE.Sample.calm)
                     (IEEE.tokenName IEEE.Sample.calm)) /\
  (In (toLowerCase (tickerOf (toRanked Sample.pepe)))
      (map (fun b => toLowerCase (JS.or_str (IEEE.ticker b) (IEEE.tokenName b)))
           [IEEE.Sample.doge]) -> False) /\
  IEEE.refreshToken toLowerCase
    (IEEE.analysisMap toLowerCase
       ([IEEE.Sample.bullish] ++ IEEE.Sample.calm :: [IEEE.Sample.doge]))
    1000 (toRanked Sample.pepe)
  = IEEE.updateTokenSocialScore (Ranked.address (toRanked Sample.pepe))
      (IEEE.calculateSocialScore IEEE.Sample.calm) IEEE.Sample.calm 1000.
Proof.
  assert (Hlast :
    ~ In (toLowerCase (tickerOf (toRanked Sample.pepe)))
        (map (fun b => toLowerCase (JS.or_str (IEEE.ticker b) (IEEE.tokenName b)))
             [IEEE.Sample.doge])).
  { intros [H|[]]. vm_compute in H. discriminate H. }
  split; [reflexivity|]. split; [exact Hlast|].
  apply (last_listed_analysis_wins toLowerCase [IEEE.Sample.bullish]
           [IEEE.Sample.doge] IEEE.Sample.calm 1000 (toRanked Sample.pepe));
    [reflexivity | exact Hlast].
Defined.
